(* ===================================================================== *)
(* torpc/rpc.py : the RPC protocol engine, embedded and verified          *)
(*                                                                       *)
(*   wire framing ('!ibi' header + msgpack payload), the sticky-packet    *)
(*   receive loop, the request table with its time-outs, the identifier   *)
(*   generator and the duplex name registry.                              *)
(* ===================================================================== *)

From Stdlib Require Import ZArith NArith List String Ascii Bool Lia.
From Stdlib.Strings Require Import Byte.
From stdpp Require Import base option list gmap strings.

Local Open Scope Z_scope.
Set Warnings "-register-all".

(* --------------------------------------------------------------------- *)
(* Byte strings and Python slicing                                        *)
(* --------------------------------------------------------------------- *)

Abbreviation bytes := (list byte).

Definition len {A} (s : list A) : Z := Z.of_nat (length s).

(* Python's index normalisation inside a slice of a sequence of length n:
   a negative index counts from the end, and everything is clamped. *)
Definition slice_index (n i : Z) : Z :=
  if i <? 0 then Z.max 0 (n + i) else Z.min i n.

(* s[i:] *)
Definition slice_from {A} (s : list A) (i : Z) : list A :=
  drop (Z.to_nat (slice_index (len s) i)) s.

(* s[:j] *)
Definition slice_to {A} (s : list A) (j : Z) : list A :=
  take (Z.to_nat (slice_index (len s) j)) s.

(* s[i:j] *)
Definition slice {A} (s : list A) (i j : Z) : list A :=
  let lo := slice_index (len s) i in
  let hi := slice_index (len s) j in
  take (Z.to_nat (hi - lo)) (drop (Z.to_nat lo) s).

(* --------------------------------------------------------------------- *)
(* struct '!ibi' : big-endian int32, int8, int32                          *)
(* --------------------------------------------------------------------- *)

Definition byte_val (b : byte) : Z := Z.of_N (Byte.to_N b).

Definition byte_of (z : Z) : byte :=
  match Byte.of_N (Z.to_N (z mod 256)) with
  | Some b => b
  | None => x00
  end.

Definition to_signed (bits : Z) (u : Z) : Z :=
  if u <? 2 ^ (bits - 1) then u else u - 2 ^ bits.

Definition of_signed (bits : Z) (v : Z) : Z := v mod 2 ^ bits.

Definition be_uint32 (a b c d : byte) : Z :=
  byte_val a * 2 ^ 24 + byte_val b * 2 ^ 16 + byte_val c * 2 ^ 8 + byte_val d.

Definition be_bytes32 (u : Z) : bytes :=
  [byte_of (u / 2 ^ 24); byte_of (u / 2 ^ 16); byte_of (u / 2 ^ 8); byte_of u].

Definition int32_ok (v : Z) : bool := (- 2 ^ 31 <=? v) && (v <? 2 ^ 31).
Definition int8_ok (v : Z) : bool := (- 128 <=? v) && (v <? 128).

(* struct.calcsize('!ibi') *)
Definition HEAD_LEN : Z := 9.

(* struct.unpack('!ibi', h): fails (struct.error) unless h has 9 bytes. *)
Definition struct_unpack (h : bytes) : option (Z * Z * Z) :=
  match h with
  | [l3; l2; l1; l0; t; i3; i2; i1; i0] =>
      Some (to_signed 32 (be_uint32 l3 l2 l1 l0),
            to_signed 8 (byte_val t),
            to_signed 32 (be_uint32 i3 i2 i1 i0))
  | _ => None
  end.

(* struct.pack('!ibi', n, t, i): fails (struct.error) when a field does
   not fit its format. *)
Definition struct_pack (n t i : Z) : option bytes :=
  if int32_ok n && int8_ok t && int32_ok i
  then Some (be_bytes32 (of_signed 32 n) ++ [byte_of (of_signed 8 t)]
             ++ be_bytes32 (of_signed 32 i))
  else None.

Definition RPC_REQUEST : Z := 0.
Definition RPC_RESPONSE : Z := 1.
Definition RPC_NOTICE : Z := 2.
Definition RPC_REGISTER : Z := 3.

(* --------------------------------------------------------------------- *)
(* _IDGenerator                                                           *)
(* --------------------------------------------------------------------- *)

(* A suspended generator: [started] tells whether the first [yield] has
   been reached, [counter] is the local variable of the generator. *)
Record IDGenerator := mkGen { started : bool; counter : Z }.

Definition _IDGenerator : IDGenerator := mkGen false 0.

(* next(g): resume after the last yield, run to the following yield. *)
Definition next (g : IDGenerator) : Z * IDGenerator :=
  if started g then
    let c := counter g + 1 in
    let c := if c >? Z.shiftl 1 30 then 0 else c in
    (c, mkGen true c)
  else (counter g, mkGen true (counter g)).

(* The generator after n calls of next, and the value the (n+1)-th call
   yields (calls are numbered from 0). *)
Definition gen_after (n : N) : IDGenerator :=
  N.iter n (fun g => snd (next g)) _IDGenerator.

Definition nth_id (n : N) : Z := fst (next (gen_after n)).


(* --------------------------------------------------------------------- *)
(* Values, exceptions, futures                                            *)
(* --------------------------------------------------------------------- *)

(* The Python values that travel through the codec.  Tuples and lists are
   both sequences on the wire, hence one constructor; maps and floats are
   left out. *)
Inductive value :=
  | VNone
  | VBool (b : bool)
  | VInt (z : Z)
  | VStr (s : string)
  | VList (l : list value).

(* bool(v) *)
Definition truthy (v : value) : bool :=
  match v with
  | VNone => false
  | VBool b => b
  | VInt z => negb (z =? 0)
  | VStr s => negb (String.eqb s EmptyString)
  | VList l => match l with [] => false | _ :: _ => true end
  end.

Definition chars (s : string) : list value :=
  map (fun a => VStr (String a EmptyString)) (list_ascii_of_string s).

Inductive exn :=
  | RPCServerError (err : value)
  | RPCRegisterError (name : string)
  | RPCTimeOutError (msg_id : Z)
  | StructError
  | TypeError
  | ValueError
  | FutureNotDone                    (* result() of a pending future *)
  | UserError (k : nat).             (* raised by a callback of the caller *)

(* (a, b) = v *)
Definition unpack2 (v : value) : exn + value * value :=
  match v with
  | VList [a; b] => inr (a, b)
  | VList _ => inl ValueError
  | VStr s => match chars s with
              | [a; b] => inr (a, b)
              | _ => inl ValueError
              end
  | _ => inl TypeError
  end.

(* the positional arguments that a starred v expands to *)
Definition star (v : value) : exn + list value :=
  match v with
  | VList l => inr l
  | VStr s => inr (chars s)
  | _ => inl TypeError
  end.

(* tornado.concurrent.Future, as far as this module uses it. *)
Inductive fut_state :=
  | Pending
  | Result (v : value)
  | Failed (e : exn).

Inductive callback :=
  | CbUser (k : nat)                 (* a callable handed in by the caller *)
  | CbRegister (rpc_name : string)   (* RPCClient._register_callback *)
  | CbResult (msg_id : Z).           (* partial(self.result_callback, msg_id) *)

Record Future := mkFuture { fstate : fut_state; fcallbacks : list callback }.

Inductive log_entry :=
  | LogDebug (s : string)
  | LogWarning (s : string)
  | LogDecodeError                   (* logger.debug(str(e)) in on_receive *)
  | LogNoticeError (method_name : value)
  | LogCallbackException (cb : callback) (e : exn).

(* --------------------------------------------------------------------- *)
(* Collaborators                                                          *)
(* --------------------------------------------------------------------- *)

(* msgpack: packer.dumps / packer.loads (None: loads raised). *)
Class Codec := {
  dumps : value -> bytes;
  loads : bytes -> option value }.

(* An argument of service.call: a value, or the connection itself. *)
Inductive arg := AVal (v : value) | ASelf.

Inductive svc_result :=
  | SvcRaise (tb : string)           (* raised; tb = traceback.format_exc() *)
  | SvcReturn (v : value)
  | SvcFuture (st : fut_state).      (* returned a Future in state st *)

(* torpc.services.Services.call(method_name, *args) *)
Class Service := {
  svc : Type;
  service_call : value -> list arg -> svc -> svc * svc_result }.

(* What the module does not decide itself: what a caller's callback does
   with a completed future (None: returns, Some e: raises e), and whether
   the Future lets an exception escape from a done-callback
   (true) or logs it and goes on (false). *)
Class Host := {
  user_callback : nat -> fut_state -> option exn;
  callback_errors_propagate : bool }.

(* --------------------------------------------------------------------- *)
(* RPCConnection                                                          *)
(* --------------------------------------------------------------------- *)

Section Engine.
Context {codec : Codec} {serv : Service} {host : Host}.

(* The five slots of the class, then what it reaches through its base
   class and the io_loop: the futures it created (a future is named by its
   position), the scheduled time-outs (delay, msg_id), the frames given to
   write(), and the log. *)
Record RPCConnection := mkConn {
  _buff : bytes;
  _generator : IDGenerator;
  _request_table : gmap Z nat;
  _request_timeout : Z;
  service : svc;
  futures : list Future;
  timeouts : list (Z * Z);
  written : list bytes;
  log : list log_entry }.

Definition RPCConnection_init (s : svc) (request_timeout : Z) : RPCConnection :=
  mkConn [] _IDGenerator ∅ request_timeout s [] [] [] [].

Definition set_buff (b : bytes) (c : RPCConnection) : RPCConnection :=
  mkConn b (_generator c) (_request_table c) (_request_timeout c) (service c)
         (futures c) (timeouts c) (written c) (log c).
Definition set_generator (g : IDGenerator) (c : RPCConnection) : RPCConnection :=
  mkConn (_buff c) g (_request_table c) (_request_timeout c) (service c)
         (futures c) (timeouts c) (written c) (log c).
Definition set_request_table (t : gmap Z nat) (c : RPCConnection) : RPCConnection :=
  mkConn (_buff c) (_generator c) t (_request_timeout c) (service c)
         (futures c) (timeouts c) (written c) (log c).
Definition set_service (s : svc) (c : RPCConnection) : RPCConnection :=
  mkConn (_buff c) (_generator c) (_request_table c) (_request_timeout c) s
         (futures c) (timeouts c) (written c) (log c).
Definition set_futures (h : list Future) (c : RPCConnection) : RPCConnection :=
  mkConn (_buff c) (_generator c) (_request_table c) (_request_timeout c) (service c)
         h (timeouts c) (written c) (log c).
Definition set_timeouts (t : list (Z * Z)) (c : RPCConnection) : RPCConnection :=
  mkConn (_buff c) (_generator c) (_request_table c) (_request_timeout c) (service c)
         (futures c) t (written c) (log c).
Definition set_written (w : list bytes) (c : RPCConnection) : RPCConnection :=
  mkConn (_buff c) (_generator c) (_request_table c) (_request_timeout c) (service c)
         (futures c) (timeouts c) w (log c).
Definition set_log (l : list log_entry) (c : RPCConnection) : RPCConnection :=
  mkConn (_buff c) (_generator c) (_request_table c) (_request_timeout c) (service c)
         (futures c) (timeouts c) (written c) l.

(* A method of the connection: it may change the connection, and either
   returns or raises.  What it changed before raising stays changed. *)
Definition M (A : Type) : Type := RPCConnection -> RPCConnection * (exn + A).

Definition ret {A} (a : A) : M A := fun c => (c, inr a).
Definition raise {A} (e : exn) : M A := fun c => (c, inl e).
Definition bind {A B} (m : M A) (k : A -> M B) : M B :=
  fun c => match m c with
           | (c', inl e) => (c', inl e)
           | (c', inr a) => k a c'
           end.
Definition modify (f : RPCConnection -> RPCConnection) : M unit :=
  fun c => (f c, inr tt).
Definition lift {A} (r : exn + A) : M A := fun c => (c, r).

Notation "'let*' x := m 'in' k" := (bind m (fun x => k))
  (at level 10, x name, m at level 200, k at level 200).

(* m does the same whatever _buff holds, and leaves _buff alone. *)
Definition blind {A} (m : M A) : Prop :=
  forall (y : bytes) (c : RPCConnection),
    m (set_buff y c) = (set_buff y (fst (m c)), snd (m c)).

(* Connection.write(buf) *)
Definition write (buf : bytes) : M unit :=
  modify (fun c => set_written (written c ++ [buf]) c).

Definition logger (e : log_entry) : M unit :=
  modify (fun c => set_log (log c ++ [e]) c).

Definition _pack_request (msg_id msg_type : Z) (method_name arg : value)
  : exn + bytes :=
  let buf := dumps (VList [method_name; arg]) in
  match struct_pack (len buf) msg_type msg_id with
  | Some h => inr (h ++ buf)
  | None => inl StructError
  end.

Definition _pack_response (msg_id msg_type : Z) (err result : value)
  : exn + bytes :=
  let buf := dumps (VList [err; result]) in
  match struct_pack (len buf) msg_type msg_id with
  | Some h => inr (h ++ buf)
  | None => inl StructError
  end.

(* ---- futures ---- *)

(* Future(), or a future of the service entering the picture *)
Definition new_future (st : fut_state) : M nat :=
  fun c => (set_futures (futures c ++ [mkFuture st []]) c, inr (length (futures c))).

Definition state_of (c : RPCConnection) (f : nat) : fut_state :=
  match futures c !! f with
  | Some fu => fstate fu
  | None => Pending
  end.

(* future.result() *)
Definition future_result (f : nat) : M value :=
  fun c => match state_of c f with
           | Result v => (c, inr v)
           | Failed e => (c, inl e)
           | Pending => (c, inl FutureNotDone)
           end.

Definition result_callback (msg_id : Z) (f : nat) : M unit :=
  let* result := future_result f in
  let* buf := lift (_pack_response msg_id RPC_RESPONSE VNone result) in
  write buf.

(* RPCClient._register_callback, RPCClient.on_registered *)
Definition on_registered (r : value) : M unit := logger (LogDebug "on_registered").

Definition _register_callback (rpc_name : string) (f : nat) : M unit :=
  let* r := future_result f in
  if negb (truthy r) then
    let* _ := logger (LogWarning "register failed") in
    raise (RPCRegisterError rpc_name)
  else on_registered r.

Definition run_callback (cb : callback) (f : nat) : M unit :=
  match cb with
  | CbUser k => fun c => match user_callback k (state_of c f) with
                         | Some e => (c, inl e)
                         | None => (c, inr tt)
                         end
  | CbRegister rpc_name => _register_callback rpc_name f
  | CbResult msg_id => result_callback msg_id f
  end.

(* future.add_done_callback(cb): runs cb at once on a completed future *)
Definition add_done_callback (f : nat) (cb : callback) : M unit :=
  fun c => match futures c !! f with
           | Some (mkFuture Pending cbs) =>
               (set_futures (<[f := mkFuture Pending (cbs ++ [cb])]> (futures c)) c, inr tt)
           | _ => run_callback cb f c
           end.

(* The done-callbacks of f, run in order. *)
Fixpoint run_callbacks (cbs : list callback) (f : nat) : M unit :=
  match cbs with
  | [] => ret tt
  | cb :: rest =>
      fun c => match run_callback cb f c with
               | (c', inl e) =>
                   if callback_errors_propagate then (c', inl e)
                   else (let* _ := logger (LogCallbackException cb e) in
                         run_callbacks rest f) c'
               | (c', inr _) => run_callbacks rest f c'
               end
  end.

(* future.set_result(v) *)
Definition set_result (f : nat) (v : value) : M unit :=
  fun c => match futures c !! f with
           | Some fu =>
               run_callbacks (fcallbacks fu) f
                 (set_futures (<[f := mkFuture (Result v) []]> (futures c)) c)
           | None => (c, inr tt)
           end.

(* ---- inbound handlers ---- *)

Definition call_service (method_name : value) (args : list arg) : M svc_result :=
  fun c => let '(s, r) := service_call method_name args (service c) in
           (set_service s c, inr r).

(* The else-branch shared by handle_rpc_request and handle_rpc_register,
   and their except-branch. *)
Definition respond (msg_id : Z) (r : svc_result) : M unit :=
  match r with
  | SvcRaise tb =>
      let* buf := lift (_pack_response msg_id RPC_RESPONSE (VStr tb) VNone) in
      write buf
  | SvcFuture st =>
      let* f := new_future st in
      add_done_callback f (CbResult msg_id)
  | SvcReturn v =>
      let* buf := lift (_pack_response msg_id RPC_RESPONSE VNone v) in
      write buf
  end.

Definition handle_rpc_request (msg_id : Z) (method_name : value)
  (args : list value) : M unit :=
  let* r := call_service method_name (map AVal args) in
  respond msg_id r.

Definition handle_rpc_notice (msg_id : Z) (method_name args : value) : M unit :=
  match star args with
  | inl _ => logger (LogNoticeError method_name)
  | inr l =>
      let* r := call_service method_name (map AVal l) in
      match r with
      | SvcRaise _ => logger (LogNoticeError method_name)
      | _ => ret tt
      end
  end.

Definition handle_rpc_register (msg_id : Z) (method_name args : value) : M unit :=
  let* r := call_service method_name [ASelf; AVal args] in
  respond msg_id r.

(* self._request_table.get(msg_id): None when msg_id is not in the table *)
Definition lookup_request (msg_id : Z) : M (option nat) :=
  fun c => (c, inr (_request_table c !! msg_id)).

Definition handle_rpc_response (msg_id : Z) (err r : value) : M unit :=
  let* entry := lookup_request msg_id in
  match entry with
  | None => logger (LogDebug "response time out?")
  | Some future =>
      if truthy err then raise (RPCServerError err)
      else
        let* _ := modify (fun c => set_request_table (delete msg_id (_request_table c)) c) in
        set_result future r
  end.

(* The if/elif chain at the end of the loop body of on_receive. *)
Definition dispatch (msg_type msg_id : Z) (req : value) : M unit :=
  if msg_type =? RPC_REQUEST then
    let* p := lift (unpack2 req) in
    let* args := lift (star (snd p)) in
    handle_rpc_request msg_id (fst p) args
  else if msg_type =? RPC_RESPONSE then
    let* p := lift (unpack2 req) in
    handle_rpc_response msg_id (fst p) (snd p)
  else if msg_type =? RPC_NOTICE then
    let* p := lift (unpack2 req) in
    handle_rpc_notice msg_id (fst p) (snd p)
  else if msg_type =? RPC_REGISTER then
    let* p := lift (unpack2 req) in
    handle_rpc_register msg_id (fst p) (snd p)
  else ret tt.

(* ---- on_receive ---- *)

(* How an invocation of on_receive ends: the while loop is left (its
   condition fails, or break), the return after a failed loads, an
   exception; Diverged: the loop did not end within the fuel given. *)
Inductive recv_exit :=
  | Drained
  | Returned
  | Raised (e : exn)
  | Diverged.

(* A frame that reached the if/elif chain: header fields and decoded
   payload. *)
Record frame := mkFrame {
  data_length : Z; msg_type : Z; msg_id : Z; req : value }.

Record recv_result := mkRecv {
  conn_after : RPCConnection;
  exit : recv_exit;
  dispatched : list frame }.

Definition add_frame (f : frame) (r : recv_result) : recv_result :=
  mkRecv (conn_after r) (exit r) (f :: dispatched r).

(* The while loop; _cur_len is the local variable of that name. *)
Fixpoint receive_loop (fuel : nat) (_cur_len : Z) (c : RPCConnection)
  : recv_result :=
  match fuel with
  | O => mkRecv c Diverged []
  | S fuel =>
      if _cur_len >? HEAD_LEN then
        match struct_unpack (slice_to (_buff c) HEAD_LEN) with
        | None => mkRecv c (Raised StructError) []
        | Some (data_length, msg_type, msg_id) =>
            if _cur_len - HEAD_LEN >=? data_length then
              let request := slice (_buff c) HEAD_LEN (HEAD_LEN + data_length) in
              let c := set_buff (slice_from (_buff c) (HEAD_LEN + data_length)) c in
              let _cur_len := len (_buff c) in
              match loads request with
              | None => mkRecv (set_log (log c ++ [LogDecodeError]) c) Returned []
              | Some req =>
                  let fr := mkFrame data_length msg_type msg_id req in
                  match dispatch msg_type msg_id req c with
                  | (c, inl e) => mkRecv c (Raised e) [fr]
                  | (c, inr _) => add_frame fr (receive_loop fuel _cur_len c)
                  end
              end
            else mkRecv c Drained []
        end
      else mkRecv c Drained []
  end.

(* One turn of that loop, for the proofs: it ends the invocation, or it
   dispatched a frame and goes round again. *)
Inductive turn :=
  | Stop (r : recv_result)
  | Again (fr : frame) (_cur_len : Z) (c : RPCConnection).

Definition receive_turn (_cur_len : Z) (c : RPCConnection) : turn :=
  if _cur_len >? HEAD_LEN then
    match struct_unpack (slice_to (_buff c) HEAD_LEN) with
    | None => Stop (mkRecv c (Raised StructError) [])
    | Some (data_length, msg_type, msg_id) =>
        if _cur_len - HEAD_LEN >=? data_length then
          let request := slice (_buff c) HEAD_LEN (HEAD_LEN + data_length) in
          let c := set_buff (slice_from (_buff c) (HEAD_LEN + data_length)) c in
          let _cur_len := len (_buff c) in
          match loads request with
          | None => Stop (mkRecv (set_log (log c ++ [LogDecodeError]) c) Returned [])
          | Some req =>
              let fr := mkFrame data_length msg_type msg_id req in
              match dispatch msg_type msg_id req c with
              | (c, inl e) => Stop (mkRecv c (Raised e) [fr])
              | (c, inr _) => Again fr _cur_len c
              end
          end
        else Stop (mkRecv c Drained [])
    end
  else Stop (mkRecv c Drained []).

Definition on_receive (c : RPCConnection) (data : bytes) : recv_result :=
  let c := set_buff (_buff c ++ data) c in
  let _cur_len := len (_buff c) in
  receive_loop (S (length (_buff c))) _cur_len c.

(* Successive reads: each chunk is given to on_receive of the connection
   the previous read left; the frames dispatched are collected in order,
   and the exit is that of the last read. *)
Fixpoint on_receive_chunks (c : RPCConnection) (chunks : list bytes)
  : recv_result :=
  match chunks with
  | [] => mkRecv c Drained []
  | d :: rest =>
      let r := on_receive c d in
      let r' := on_receive_chunks (conn_after r) rest in
      mkRecv (conn_after r') (match rest with [] => exit r | _ => exit r' end)
             (dispatched r ++ dispatched r')
  end.

(* ---- outbound operations ---- *)

Definition add_request_table (msg_id : Z) (future : nat) : M unit :=
  modify (fun c =>
    let c := if negb (_request_timeout c =? 0)
             then set_timeouts (timeouts c ++ [(_request_timeout c, msg_id)]) c
             else c in
    set_request_table (<[msg_id := future]> (_request_table c)) c).

Definition next_id : M Z :=
  fun c => let '(i, g) := next (_generator c) in (set_generator g c, inr i).

Definition call (method_name : value) (arg : list value)
  (_callback : option callback) : M nat :=
  let* msg_id := next_id in
  let* buff := lift (_pack_request msg_id RPC_REQUEST method_name (VList arg)) in
  let* future := new_future Pending in
  let* _ := add_request_table msg_id future in
  let* _ := match _callback with
            | Some cb => add_done_callback future cb
            | None => ret tt
            end in
  let* _ := write buff in
  ret future.

Definition notice (method_name : value) (arg : list value) : M unit :=
  let* msg_id := next_id in
  let* buf := lift (_pack_request msg_id RPC_NOTICE method_name (VList arg)) in
  write buf.

(* The last argument of _pack_request is (name): the name itself. *)
Definition register (name : value) (callback : option callback) : M nat :=
  let* msg_id := next_id in
  let* buf := lift (_pack_request msg_id RPC_REGISTER (VStr "register") name) in
  let* future := new_future Pending in
  let* _ := match callback with
            | Some cb => add_done_callback future cb
            | None => ret tt
            end in
  let* _ := add_request_table msg_id future in
  let* _ := write buf in
  ret future.

(* The callback the io_loop runs when a time-out scheduled by
   add_request_table fires. *)
Definition message_timeout_cb (msg_id : Z) : M unit :=
  let* entry := lookup_request msg_id in
  match entry with
  | None => logger (LogDebug "not exist, timeout?")
  | Some _ =>
      let* _ := modify (fun c => set_request_table (delete msg_id (_request_table c)) c) in
      raise (RPCTimeOutError msg_id)
  end.

(* What add_request_table leaves in the io_loop, and the done-callbacks of
   a future created with an optional callback. *)
Definition scheduled (c : RPCConnection) (msg_id : Z) : list (Z * Z) :=
  if negb (_request_timeout c =? 0)
  then timeouts c ++ [(_request_timeout c, msg_id)]
  else timeouts c.

Definition callbacks_of (cb : option callback) : list callback :=
  match cb with Some cb => [cb] | None => [] end.

(* What the peer finds in a frame buf: the type and identifier of the
   header, and the decoded payload, when the header is whole, its length
   field is the length of the payload, and the payload decodes. *)
Definition decode_frame (buf : bytes) : option (Z * Z * value) :=
  match struct_unpack (take 9 buf) with
  | Some (n, t, i) =>
      if n =? len (drop 9 buf) then
        match loads (drop 9 buf) with
        | Some v => Some (t, i, v)
        | None => None
        end
      else None
  | None => None
  end.

(* ---- RPCClient ---- *)

Record RPCClient := mkClient { rpc_name : string; _conn : RPCConnection }.

(* RPCClient.__init__, the part this module decides: the connection and
   the registration issued when a name is given. *)
Definition RPCClient_init (name : string) (s : svc) (request_timeout : Z)
  : exn + RPCClient :=
  let c := RPCConnection_init s request_timeout in
  if negb (String.eqb name EmptyString) then
    match register (VStr name) (Some (CbRegister name)) c with
    | (c, inl e) => inl e
    | (c, inr _) => inr (mkClient name c)
    end
  else inr (mkClient name c).

End Engine.

(* --------------------------------------------------------------------- *)
(* DuplexRPCServer: the name registry                                     *)
(* --------------------------------------------------------------------- *)

Section Registry.
Context {C : Type}.   (* connections, as the registry holds them *)

Record DuplexRPCServer := mkServer {
  rpc_clients : gmap string C;
  server_log : list log_entry }.

Definition server_on_registered (name : string) (conn : C)
  (s : DuplexRPCServer) : DuplexRPCServer :=
  mkServer (rpc_clients s) (server_log s ++ [LogDebug (name ++ " registered ")]).

Definition _handle_rpc_register (conn : C) (name : string)
  (s : DuplexRPCServer) : DuplexRPCServer * bool :=
  match rpc_clients s !! name with
  | Some _ =>
      (mkServer (rpc_clients s)
                (server_log s ++ [LogWarning (name ++ " already register")]),
       false)
  | None =>
      let s := mkServer (<[name := conn]> (rpc_clients s)) (server_log s) in
      (server_on_registered name conn s, true)
  end.

End Registry.

(* --------------------------------------------------------------------- *)
(* Instances used to run the engine on concrete inputs                    *)
(* --------------------------------------------------------------------- *)

Definition ascii_bytes (s : string) : bytes :=
  map byte_of_ascii (list_ascii_of_string s).

Definition string_of_bytes (b : bytes) : string :=
  string_of_list_ascii (map ascii_of_byte b).

(* The msgpack formats nil, false, true, positive and negative fixint,
   fixstr and fixarray.  A value outside this fragment is not modelled:
   it is written as the byte 0xc1, which msgpack reserves and no decoder
   accepts. *)
Fixpoint mp_dumps (v : value) : bytes :=
  match v with
  | VNone => [xc0]
  | VBool false => [xc2]
  | VBool true => [xc3]
  | VInt z =>
      if (0 <=? z) && (z <? 128) then [byte_of z]
      else if (-32 <=? z) && (z <? 0) then [byte_of (z + 256)]
      else [xc1]
  | VStr s =>
      if Z.of_nat (String.length s) <? 32
      then byte_of (160 + Z.of_nat (String.length s)) :: ascii_bytes s
      else [xc1]
  | VList l =>
      if len l <? 16
      then byte_of (144 + len l) :: concat (map mp_dumps l)
      else [xc1]
  end.

(* One value off the front of bs, and the bytes after it.  A leading byte
   of a format outside the fragment is refused. *)
Fixpoint mp_parse (fuel : nat) (bs : bytes) : option (value * bytes) :=
  match fuel with
  | O => None
  | S fuel =>
      match bs with
      | [] => None
      | b :: rest =>
          let t := byte_val b in
          if t <? 128 then Some (VInt t, rest)
          else if t <? 144 then None
          else if t <? 160 then
            match (fix items (n : nat) (bs : bytes) : option (list value * bytes) :=
                     match n with
                     | O => Some ([], bs)
                     | S n =>
                         match mp_parse fuel bs with
                         | Some (v, bs') =>
                             match items n bs' with
                             | Some (vs, bs'') => Some (v :: vs, bs'')
                             | None => None
                             end
                         | None => None
                         end
                     end) (Z.to_nat (t - 144)) rest with
            | Some (vs, bs') => Some (VList vs, bs')
            | None => None
            end
          else if t <? 192 then
            let n := Z.to_nat (t - 160) in
            if (length rest <? n)%nat then None
            else Some (VStr (string_of_bytes (take n rest)), drop n rest)
          else if t =? 192 then Some (VNone, rest)
          else if t =? 194 then Some (VBool false, rest)
          else if t =? 195 then Some (VBool true, rest)
          else if 224 <=? t then Some (VInt (t - 256), rest)
          else None
      end
  end.

(* loads raises on truncated input and on bytes left over. *)
Definition mp_loads (bs : bytes) : option value :=
  match mp_parse (S (length bs)) bs with
  | Some (v, []) => Some v
  | _ => None
  end.

Definition msgpack : Codec := {| dumps := mp_dumps; loads := mp_loads |}.

(* A service with two methods: echo returns its first argument, log
   keeps its arguments; any other name raises. *)
Definition demo_call (method_name : value) (args : list arg)
  (s : list arg) : list arg * svc_result :=
  match method_name with
  | VStr "echo" =>
      (s, SvcReturn (match args with AVal v :: _ => v | _ => VNone end))
  | VStr "log" => (s ++ args, SvcReturn VNone)
  | _ => (s, SvcRaise "no such method")
  end.

Definition demo_service : Service :=
  {| svc := list arg; service_call := demo_call |}.

(* Callbacks of the caller return; the Future logs what a callback raises. *)
Definition quiet_host : Host :=
  {| user_callback := fun _ _ => None; callback_errors_propagate := false |}.

(* Callbacks of the caller return; the Future lets exceptions through. *)
Definition loud_host : Host :=
  {| user_callback := fun _ _ => None; callback_errors_propagate := true |}.

Definition demo_conn (request_timeout : Z) : @RPCConnection demo_service :=
  RPCConnection_init (serv := demo_service) [] request_timeout.

(* A frame as the peer writes it. *)
Definition wire_frame (msg_type msg_id : Z) (payload : bytes) : bytes :=
  match struct_pack (len payload) msg_type msg_id with
  | Some h => h ++ payload
  | None => []
  end.

(* Frames and connections the examples below run on. *)
Definition notice_log_hi (i : Z) : bytes :=
  wire_frame RPC_NOTICE i (mp_dumps (VList [VStr "log"; VList [VStr "hi"]])).

Definition response_boom (i : Z) : bytes :=
  wire_frame RPC_RESPONSE i (mp_dumps (VList [VStr "boom"; VNone])).

Definition undecodable (i : Z) : bytes := wire_frame RPC_NOTICE i [xc1].

(* The RESPONSE (None, False) to request i. *)
Definition response_false (i : Z) : bytes :=
  wire_frame RPC_RESPONSE i (mp_dumps (VList [VNone; VBool false])).

(* The connection of RPCClient(address, rpc_name="nodeA"), for a Future
   that logs callback errors and for one that lets them through. *)
Definition client_conn (h : Host) : option (@RPCConnection demo_service) :=
  match RPCClient_init (codec := msgpack) (serv := demo_service) (host := h)
          "nodeA" [] 0 with
  | inr cl => Some (_conn cl)
  | inl _ => None
  end.

Definition register_nodeA : bytes :=
  wire_frame RPC_REGISTER 0 (mp_dumps (VList [VStr "register"; VStr "nodeA"])).

(* The connection after call("echo", 1) on a fresh connection. *)
Definition calling (request_timeout : Z) : @RPCConnection demo_service :=
  fst (call (codec := msgpack) (host := quiet_host)
         (VStr "echo") [VInt 1] None (demo_conn request_timeout)).

(* --------------------------------------------------------------------- *)
(* DuplexRPCServer: disconnects and routed calls                          *)
(* --------------------------------------------------------------------- *)

Section RegistryClose.
Context {C : Type} `{EqDecision C}.

(* The loop of on_close over iteritems(): the name of the first item
   whose connection is conn.  The order of the items is the dict's own. *)
Definition find_node (conn : C) (items : list (string * C)) : option string :=
  match List.find (fun p => bool_decide (snd p = conn)) items with
  | Some p => Some (fst p)
  | None => None
  end.

(* on_close, for the items in the order the dict gives them. *)
Definition on_close_in (items : list (string * C)) (conn : C)
  (s : @DuplexRPCServer C) : @DuplexRPCServer C :=
  match find_node conn items with
  | Some _node_name =>
      if negb (String.eqb _node_name EmptyString) then
        mkServer (delete _node_name (rpc_clients s))
                 (server_log s ++ [LogDebug (_node_name ++ " disconnect")])
      else s
  | None => s
  end.

Definition on_close (conn : C) (s : @DuplexRPCServer C) : @DuplexRPCServer C :=
  on_close_in (map_to_list (rpc_clients s)) conn s.

End RegistryClose.

Section Duplex.
Context {codec : Codec} {serv : Service} {host : Host}.

(* The registry together with the connection objects it refers to: a
   connection is named by its position in conns. *)
Record Duplex := mkDuplex {
  registry : @DuplexRPCServer nat;
  conns : list RPCConnection }.

(* How call_node ends: the name is not registered (the Exception), or
   node.call raised or returned a future of connection k.  NodeGone: the
   registry names a position that holds no connection. *)
Inductive node_outcome :=
  | NodeNotExist (name : string)
  | NodeRaised (e : exn)
  | NodeFuture (k f : nat)
  | NodeGone.

Definition call_node (name : string) (method_name : value) (arg : list value)
  (d : Duplex) : Duplex * node_outcome :=
  match rpc_clients (registry d) !! name with
  | None => (d, NodeNotExist name)
  | Some k =>
      match conns d !! k with
      | Some node =>
          match call method_name arg None node with
          | (node', inl e) =>
              (mkDuplex (registry d) (<[k := node']> (conns d)), NodeRaised e)
          | (node', inr future) =>
              (mkDuplex (registry d) (<[k := node']> (conns d)), NodeFuture k future)
          end
      | None => (d, NodeGone)
      end
  end.

(* DuplexRPCServer._handle_rpc_register and on_close on the registry of a
   Duplex. *)
Definition duplex_register (k : nat) (name : string) (d : Duplex)
  : Duplex * bool :=
  let '(r, ok) := _handle_rpc_register k name (registry d) in
  (mkDuplex r (conns d), ok).

Definition duplex_close (k : nat) (d : Duplex) : Duplex :=
  mkDuplex (on_close k (registry d)) (conns d).

End Duplex.

(* The (err, result) a handler answers at once for a service outcome;
   None: the answer waits for a Future. *)
Definition answer_of (r : svc_result) : option (value * value) :=
  match r with
  | SvcRaise tb => Some (VStr tb, VNone)
  | SvcReturn v => Some (VNone, v)
  | SvcFuture _ => None
  end.

(* The bytes that frames take on the wire: 9 for the header and the
   length field for the payload, each. *)
Definition wire_size {serv : Service} (frames : list frame) : Z :=
  fold_right (fun fr n => HEAD_LEN + data_length fr + n) 0 frames.

(* Every entry of the request table names a future that is still pending,
   and no two entries name the same future. *)
Definition entries_pending {serv : Service} (c : RPCConnection) : Prop :=
  forall (i : Z) (f : nat),
    _request_table c !! i = Some f ->
    (exists cbs, futures c !! f = Some (mkFuture Pending cbs))
    /\ forall j, _request_table c !! j = Some f -> j = i.

(* m keeps entries_pending. *)
Definition keeps {serv : Service} {A} (m : M A) : Prop :=
  forall c : RPCConnection, entries_pending c -> entries_pending (fst (m c)).

(* A service whose method later returns a Future that is still
   pending. *)
Definition async_call (method_name : value) (args : list arg) (s : unit)
  : unit * svc_result :=
  match method_name with
  | VStr "later" => (s, SvcFuture Pending)
  | _ => (s, SvcRaise "no such method")
  end.

Definition async_service : Service :=
  {| svc := unit; service_call := async_call |}.

Definition async_conn : @RPCConnection async_service :=
  RPCConnection_init (serv := async_service) tt 0.

(* Frames of a call of echo(42) with identifier 0 and of its answers. *)
Definition request_echo42 : bytes :=
  wire_frame RPC_REQUEST 0 (mp_dumps (VList [VStr "echo"; VList [VInt 42]])).

Definition response_42 : bytes :=
  wire_frame RPC_RESPONSE 0 (mp_dumps (VList [VNone; VInt 42])).

Definition request_nope : bytes :=
  wire_frame RPC_REQUEST 0 (mp_dumps (VList [VStr "nope"; VList []])).

Definition response_no_such_method : bytes :=
  wire_frame RPC_RESPONSE 0 (mp_dumps (VList [VStr "no such method"; VNone])).

(* Registries: nodeA held by connection 0, and the empty name held by
   connection 1; a server with one connection and nobody registered. *)
Definition one_node : @DuplexRPCServer nat :=
  mkServer {[ "nodeA" := 0%nat ]} [].

Definition nameless_node : @DuplexRPCServer nat :=
  mkServer {[ EmptyString := 1%nat ]} [].

Definition lobby : @Duplex demo_service :=
  mkDuplex (mkServer ∅ []) [demo_conn 0].

Definition lobby_with_nodeA : @Duplex demo_service :=
  mkDuplex one_node [demo_conn 0].

(* ===================================================================== *)
(* Identifier generator                                                   *)
(* ===================================================================== *)

Lemma gen_after_succ (n : N) :
  gen_after (N.succ n) = snd (next (gen_after n)).
Proof. unfold gen_after. now rewrite N.iter_succ. Qed.

Lemma wrap_step (r : Z) :
  0 <= r < 1073741825 ->
  (if r + 1 >? 1073741824 then 0 else r + 1) = (r + 1) mod 1073741825.
Proof.
  intros Hr. destruct (Z.gtb_spec (r + 1) 1073741824) as [Hgt | Hle].
  - replace (r + 1) with 1073741825 by lia. now rewrite Z.mod_same.
  - rewrite Z.mod_small; lia.
Qed.

Lemma gen_after_closed (n : N) :
  gen_after (N.succ n) = mkGen true (Z.of_N n mod 1073741825).
Proof.
  induction n as [| n IH] using N.peano_ind.
  - reflexivity.
  - rewrite gen_after_succ, IH. unfold next. cbn [started counter snd].
    change (Z.shiftl 1 30) with 1073741824.
    rewrite wrap_step by (apply Z.mod_pos_bound; lia).
    f_equal. rewrite N2Z.inj_succ. unfold Z.succ.
    rewrite Zplus_mod_idemp_l. reflexivity.
Qed.

Lemma nth_id_mod (n : N) : nth_id n = Z.of_N n mod 1073741825.
Proof.
  destruct n as [| p] using N.peano_ind.
  - reflexivity.
  - unfold nth_id. rewrite gen_after_closed. unfold next. cbn [started counter fst].
    change (Z.shiftl 1 30) with 1073741824.
    rewrite wrap_step by (apply Z.mod_pos_bound; lia).
    rewrite N2Z.inj_succ. unfold Z.succ.
    rewrite Zplus_mod_idemp_l. reflexivity.
Qed.

(** C6 (as the code has it): the identifiers run 0, 1, ..., 2^30 and then
    start again at 0: the n-th call of next (counting from 0) yields
    n mod (2^30 + 1).  The value 2^30 itself is yielded, so the
    identifiers 0..4 of the second round are complete after 2^30 + 6
    calls, not 2^30 + 5. *)
Theorem nth_id_closed_form (n : N) :
  nth_id n = Z.of_N n mod (2 ^ 30 + 1).
Proof. exact (nth_id_mod n). Qed.

(** C6, refuted as stated: the last five of 2^30 + 5 calls of next (calls
    number 2^30 .. 2^30 + 4) do not yield 0, 1, 2, 3, 4; they yield
    2^30, 0, 1, 2, 3. *)
Lemma wrap_after_bound_is_late :
  map nth_id [2 ^ 30; 2 ^ 30 + 1; 2 ^ 30 + 2; 2 ^ 30 + 3; 2 ^ 30 + 4]%N
    = [2 ^ 30; 0; 1; 2; 3]
  /\ map nth_id [2 ^ 30; 2 ^ 30 + 1; 2 ^ 30 + 2; 2 ^ 30 + 3; 2 ^ 30 + 4]%N
    <> [0; 1; 2; 3; 4].
Proof.
  assert (E : map nth_id [2 ^ 30; 2 ^ 30 + 1; 2 ^ 30 + 2; 2 ^ 30 + 3; 2 ^ 30 + 4]%N
              = [2 ^ 30; 0; 1; 2; 3]).
  { cbn [map]. rewrite !nth_id_mod. vm_compute. reflexivity. }
  split; [exact E |]. rewrite E. vm_compute. discriminate.
Qed.

(* ===================================================================== *)
(* Duplex registry                                                        *)
(* ===================================================================== *)

(** C7: _handle_rpc_register(conn, name) on a registry that already holds
    name returns False and leaves the name-to-connection mapping as it
    was; otherwise it stores name -> conn and returns True. *)
Theorem handle_rpc_register_spec {C : Type} (s : @DuplexRPCServer C)
  (conn : C) (name : string) :
  match rpc_clients s !! name with
  | Some _ =>
      snd (_handle_rpc_register conn name s) = false
      /\ rpc_clients (fst (_handle_rpc_register conn name s)) = rpc_clients s
  | None =>
      snd (_handle_rpc_register conn name s) = true
      /\ rpc_clients (fst (_handle_rpc_register conn name s))
         = <[name := conn]> (rpc_clients s)
  end.
Proof.
  unfold _handle_rpc_register.
  destruct (rpc_clients s !! name) as [old |]; split; reflexivity.
Qed.

(* ===================================================================== *)
(* Outbound operations                                                    *)
(* ===================================================================== *)

Section Outbound.
Context {codec : Codec} {serv : Service} {host : Host}.

Lemma snoc_lookup_last {A} (l : list A) (x : A) : (l ++ [x]) !! length l = Some x.
Proof. apply list_lookup_middle. reflexivity. Qed.

Lemma snoc_insert_last {A} (l : list A) (x y : A) :
  <[length l := y]> (l ++ [x]) = l ++ [y].
Proof.
  replace (length l) with (length l + 0)%nat by lia.
  rewrite insert_app_r. reflexivity.
Qed.

Lemma call_eq (c : RPCConnection) (m : value) (a : list value)
  (cb : option callback) (buf : bytes) :
  _pack_request (fst (next (_generator c))) RPC_REQUEST m (VList a) = inr buf ->
  call m a cb c =
    (mkConn (_buff c) (snd (next (_generator c)))
            (<[fst (next (_generator c)) := length (futures c)]> (_request_table c))
            (_request_timeout c) (service c)
            (futures c ++ [mkFuture Pending (callbacks_of cb)])
            (scheduled c (fst (next (_generator c))))
            (written c ++ [buf]) (log c),
     inr (length (futures c))).
Proof.
  intros Hp. unfold call, bind, next_id, lift, new_future, add_request_table,
    modify, write, ret, scheduled.
  destruct (next (_generator c)) as [i g] eqn:Hn. cbn [fst snd] in *.
  cbn. rewrite Hp.
  destruct cb as [cb |]; cbn.
  - unfold add_done_callback. cbn.
    destruct (negb (_request_timeout c =? 0)); cbn;
      rewrite snoc_lookup_last; cbn; rewrite snoc_insert_last; reflexivity.
  - destruct (negb (_request_timeout c =? 0)); reflexivity.
Qed.

Lemma call_raises (c : RPCConnection) (m : value) (a : list value)
  (cb : option callback) (e : exn) :
  _pack_request (fst (next (_generator c))) RPC_REQUEST m (VList a) = inl e ->
  call m a cb c = (set_generator (snd (next (_generator c))) c, inl e).
Proof.
  intros Hp. unfold call, bind, next_id, lift.
  destruct (next (_generator c)) as [i g] eqn:Hn. cbn [fst snd] in *.
  rewrite Hp. reflexivity.
Qed.

Lemma register_eq (c : RPCConnection) (name : value)
  (cb : option callback) (buf : bytes) :
  _pack_request (fst (next (_generator c))) RPC_REGISTER (VStr "register") name
    = inr buf ->
  register name cb c =
    (mkConn (_buff c) (snd (next (_generator c)))
            (<[fst (next (_generator c)) := length (futures c)]> (_request_table c))
            (_request_timeout c) (service c)
            (futures c ++ [mkFuture Pending (callbacks_of cb)])
            (scheduled c (fst (next (_generator c))))
            (written c ++ [buf]) (log c),
     inr (length (futures c))).
Proof.
  intros Hp. unfold register, bind, next_id, lift, new_future, add_request_table,
    modify, write, ret, scheduled.
  destruct (next (_generator c)) as [i g] eqn:Hn. cbn [fst snd] in *.
  cbn. rewrite Hp.
  destruct cb as [cb |]; cbn.
  - unfold add_done_callback. cbn.
    rewrite snoc_lookup_last; cbn; rewrite snoc_insert_last.
    destruct (negb (_request_timeout c =? 0)); reflexivity.
  - destruct (negb (_request_timeout c =? 0)); reflexivity.
Qed.

Lemma register_raises (c : RPCConnection) (name : value)
  (cb : option callback) (e : exn) :
  _pack_request (fst (next (_generator c))) RPC_REGISTER (VStr "register") name
    = inl e ->
  register name cb c = (set_generator (snd (next (_generator c))) c, inl e).
Proof.
  intros Hp. unfold register, bind, next_id, lift.
  destruct (next (_generator c)) as [i g] eqn:Hn. cbn [fst snd] in *.
  rewrite Hp. reflexivity.
Qed.

Lemma notice_eq (c : RPCConnection) (m : value) (a : list value) :
  notice m a c =
    match _pack_request (fst (next (_generator c))) RPC_NOTICE m (VList a) with
    | inr buf =>
        (set_written (written c ++ [buf])
           (set_generator (snd (next (_generator c))) c), inr tt)
    | inl e => (set_generator (snd (next (_generator c))) c, inl e)
    end.
Proof.
  unfold notice, bind, next_id, lift, write, modify.
  destruct (next (_generator c)) as [i g] eqn:Hn. cbn [fst snd] in *.
  destruct (_pack_request i RPC_NOTICE m (VList a)); reflexivity.
Qed.

End Outbound.

(* ===================================================================== *)
(* The '!ibi' header                                                      *)
(* ===================================================================== *)

Lemma byte_val_of (z : Z) : byte_val (byte_of z) = z mod 256.
Proof.
  unfold byte_val, byte_of.
  assert (Hb : 0 <= z mod 256 < 256) by (apply Z.mod_pos_bound; lia).
  destruct (Byte.of_N (Z.to_N (z mod 256))) as [b |] eqn:E.
  - apply Byte.to_of_N in E. rewrite E. lia.
  - apply Byte.of_N_None_iff in E. lia.
Qed.

Lemma be_uint32_bytes (u : Z) :
  0 <= u < 2 ^ 32 ->
  match be_bytes32 u with
  | [a; b; c; d] => be_uint32 a b c d = u
  | _ => False
  end.
Proof.
  intros Hu. unfold be_bytes32, be_uint32. rewrite !byte_val_of.
  change (2 ^ 32) with 4294967296 in Hu.
  change (2 ^ 24) with 16777216. change (2 ^ 16) with 65536. change (2 ^ 8) with 256.
  Z.div_mod_to_equations. lia.
Qed.

Lemma signed32_roundtrip (v : Z) :
  int32_ok v = true -> to_signed 32 (of_signed 32 v) = v.
Proof.
  unfold int32_ok, to_signed, of_signed. intros H.
  apply andb_prop in H as [H1 H2]. apply Z.leb_le in H1. apply Z.ltb_lt in H2.
  change (2 ^ 31) with 2147483648 in *. change (2 ^ (32 - 1)) with 2147483648.
  change (2 ^ 32) with 4294967296.
  destruct (Z.ltb_spec (v mod 4294967296) 2147483648);
    Z.div_mod_to_equations; lia.
Qed.

Lemma signed8_roundtrip (v : Z) :
  int8_ok v = true -> to_signed 8 (byte_val (byte_of (of_signed 8 v))) = v.
Proof.
  unfold int8_ok, to_signed, of_signed. intros H. rewrite byte_val_of.
  apply andb_prop in H as [H1 H2]. apply Z.leb_le in H1. apply Z.ltb_lt in H2.
  change (2 ^ (8 - 1)) with 128. change (2 ^ 8) with 256.
  destruct (Z.ltb_spec ((v mod 256) mod 256) 128);
    Z.div_mod_to_equations; lia.
Qed.

Lemma struct_pack_length (n t i : Z) (h : bytes) :
  struct_pack n t i = Some h -> length h = 9%nat.
Proof.
  unfold struct_pack. destruct (_ && _); [| discriminate].
  intros [= <-]. reflexivity.
Qed.

Lemma struct_unpack_pack (n t i : Z) (h : bytes) :
  struct_pack n t i = Some h -> struct_unpack h = Some (n, t, i).
Proof.
  unfold struct_pack.
  destruct (int32_ok n) eqn:Hn; [| discriminate].
  destruct (int8_ok t) eqn:Ht; [| discriminate].
  destruct (int32_ok i) eqn:Hi; [| discriminate].
  cbn [andb]. intros [= <-].
  assert (Bn : 0 <= of_signed 32 n < 2 ^ 32) by (apply Z.mod_pos_bound; lia).
  assert (Bi : 0 <= of_signed 32 i < 2 ^ 32) by (apply Z.mod_pos_bound; lia).
  pose proof (be_uint32_bytes _ Bn) as En. pose proof (be_uint32_bytes _ Bi) as Ei.
  unfold be_bytes32 in *. cbn [app struct_unpack].
  rewrite En, Ei, signed8_roundtrip, !signed32_roundtrip by assumption.
  reflexivity.
Qed.

(* ===================================================================== *)
(* Timeouts, responses, registration                                      *)
(* ===================================================================== *)

Section Correlation.
Context {codec : Codec} {serv : Service} {host : Host}.

Lemma message_timeout_cb_present (c : RPCConnection) (msg_id : Z) (f : nat) :
  _request_table c !! msg_id = Some f ->
  message_timeout_cb msg_id c
  = (set_request_table (delete msg_id (_request_table c)) c,
     inl (RPCTimeOutError msg_id)).
Proof.
  intros H. unfold message_timeout_cb, bind, lookup_request. rewrite H. reflexivity.
Qed.

Lemma handle_rpc_response_absent (c : RPCConnection) (msg_id : Z) (err r : value) :
  _request_table c !! msg_id = None ->
  handle_rpc_response msg_id err r c
  = (set_log (log c ++ [LogDebug "response time out?"]) c, inr tt).
Proof.
  intros H. unfold handle_rpc_response, bind, lookup_request. rewrite H. reflexivity.
Qed.

Lemma handle_rpc_response_error (c : RPCConnection) (msg_id : Z) (f : nat)
  (err r : value) :
  _request_table c !! msg_id = Some f ->
  truthy err = true ->
  handle_rpc_response msg_id err r c = (c, inl (RPCServerError err)).
Proof.
  intros H E. unfold handle_rpc_response, bind, lookup_request. rewrite H, E.
  reflexivity.
Qed.

(* What call leaves behind: an entry for the drawn identifier that names
   a fresh pending future, and the time-out when one is configured. *)
Lemma call_leaves_pending_entry (c : RPCConnection) (m : value)
  (a : list value) (cb : option callback) (buf : bytes) :
  _pack_request (fst (next (_generator c))) RPC_REQUEST m (VList a) = inr buf ->
  let c1 := fst (call m a cb c) in
  snd (call m a cb c) = inr (length (futures c))
  /\ _request_table c1 !! fst (next (_generator c)) = Some (length (futures c))
  /\ state_of c1 (length (futures c)) = Pending
  /\ timeouts c1 = scheduled c (fst (next (_generator c))).
Proof.
  intros Hp. cbv zeta. rewrite (call_eq c m a cb buf Hp). cbn [fst snd].
  repeat split.
  - cbn. apply lookup_insert_eq.
  - unfold state_of. cbn [futures]. now rewrite snoc_lookup_last.
Qed.

(** C1 (as the code has it): when the time-out of a call fires while its
    identifier is still in the request table, message_timeout_cb removes
    the entry and raises RPCTimeOutError(msg_id) in the timer callback.
    The future that call returned is not touched: it keeps the state it
    had (pending).  A RESPONSE for that identifier that arrives afterwards
    is logged and discarded, and does not touch the future either. *)
Theorem timeout_evicts_and_raises (c : RPCConnection) (msg_id : Z) (f : nat) :
  _request_table c !! msg_id = Some f ->
  let c' := fst (message_timeout_cb msg_id c) in
  snd (message_timeout_cb msg_id c) = inl (RPCTimeOutError msg_id)
  /\ _request_table c' = delete msg_id (_request_table c)
  /\ futures c' = futures c
  /\ state_of c' f = state_of c f
  /\ forall err r,
       snd (handle_rpc_response msg_id err r c') = inr tt
       /\ futures (fst (handle_rpc_response msg_id err r c')) = futures c
       /\ log (fst (handle_rpc_response msg_id err r c'))
          = log c ++ [LogDebug "response time out?"].
Proof.
  intros H. rewrite (message_timeout_cb_present c msg_id f H). cbn [fst snd].
  repeat split.
  all: rewrite handle_rpc_response_absent
    by (cbn; apply lookup_delete_eq); reflexivity.
Qed.

End Correlation.

(* ===================================================================== *)
(* Slices with indices that are not negative                              *)
(* ===================================================================== *)

Lemma slice_to_nonneg {A} (s : list A) (j : Z) :
  0 <= j -> slice_to s j = take (Z.to_nat j) s.
Proof.
  intros Hj. unfold slice_to, slice_index, len.
  destruct (Z.ltb_spec j 0); [lia |].
  destruct (Z.le_gt_cases j (Z.of_nat (length s))).
  - rewrite Z.min_l by lia. reflexivity.
  - rewrite Z.min_r by lia. rewrite Nat2Z.id, !take_ge by lia. reflexivity.
Qed.

Lemma slice_from_nonneg {A} (s : list A) (i : Z) :
  0 <= i -> slice_from s i = drop (Z.to_nat i) s.
Proof.
  intros Hi. unfold slice_from, slice_index, len.
  destruct (Z.ltb_spec i 0); [lia |].
  destruct (Z.le_gt_cases i (Z.of_nat (length s))).
  - rewrite Z.min_l by lia. reflexivity.
  - rewrite Z.min_r by lia. rewrite Nat2Z.id, !drop_ge by lia. reflexivity.
Qed.

Lemma slice_nonneg {A} (s : list A) (i j : Z) :
  0 <= i <= j -> slice s i j = take (Z.to_nat (j - i)) (drop (Z.to_nat i) s).
Proof.
  intros Hij. unfold slice, slice_index, len.
  destruct (Z.ltb_spec i 0); [lia |]. destruct (Z.ltb_spec j 0); [lia |].
  destruct (Z.le_gt_cases i (Z.of_nat (length s))).
  - rewrite (Z.min_l i) by lia.
    destruct (Z.le_gt_cases j (Z.of_nat (length s))).
    + rewrite Z.min_l by lia. reflexivity.
    + rewrite Z.min_r by lia.
      rewrite !take_ge; [reflexivity | |]; rewrite length_drop; lia.
  - rewrite !Z.min_r by lia. rewrite Nat2Z.id, !drop_ge by lia.
    now rewrite !take_nil.
Qed.

(* ===================================================================== *)
(* No handler looks at the receive buffer                                 *)
(* ===================================================================== *)

Section Blind.
Context {codec : Codec} {serv : Service} {host : Host}.

Lemma blind_ret {A} (a : A) : blind (ret a).
Proof. intros y c. reflexivity. Qed.

Lemma blind_raise {A} (e : exn) : blind (raise (A := A) e).
Proof. intros y c. reflexivity. Qed.

Lemma blind_lift {A} (r : exn + A) : blind (lift r).
Proof. intros y c. reflexivity. Qed.

Lemma blind_bind {A B} (m : M A) (k : A -> M B) :
  blind m -> (forall a, blind (k a)) -> blind (bind m k).
Proof.
  intros Hm Hk y c. unfold bind. rewrite Hm.
  destruct (m c) as [c' [e | a]]; cbn [fst snd]; [reflexivity | apply Hk].
Qed.

Lemma blind_write (buf : bytes) : blind (write buf).
Proof. intros y c. reflexivity. Qed.

Lemma blind_logger (e : log_entry) : blind (logger e).
Proof. intros y c. reflexivity. Qed.

Lemma blind_call_service (m : value) (a : list arg) : blind (call_service m a).
Proof.
  intros y c. unfold call_service. cbn [service set_buff].
  destruct (service_call m a (service c)); reflexivity.
Qed.

Lemma blind_new_future (st : fut_state) : blind (new_future st).
Proof. intros y c. reflexivity. Qed.

Lemma blind_future_result (f : nat) : blind (future_result f).
Proof.
  intros y c. unfold future_result, state_of. cbn [futures set_buff].
  destruct (futures c !! f) as [[[] ?] |]; reflexivity.
Qed.

Lemma blind_lookup_request (msg_id : Z) : blind (lookup_request msg_id).
Proof. intros y c. reflexivity. Qed.

Lemma blind_delete_request (msg_id : Z) :
  blind (modify (fun c => set_request_table (delete msg_id (_request_table c)) c)).
Proof. intros y c. reflexivity. Qed.

Create HintDb blind.
#[local] Hint Resolve blind_ret blind_raise blind_lift blind_write blind_logger
  blind_call_service blind_new_future blind_future_result blind_lookup_request
  blind_delete_request : blind.

Ltac blind_step :=
  repeat first
    [ apply blind_bind; [| intros ?]
    | progress auto with blind
    | match goal with
      | |- blind (match ?x with _ => _ end) => destruct x
      | |- blind (if ?b then _ else _) => destruct b
      end ].

Lemma blind_result_callback (msg_id : Z) (f : nat) : blind (result_callback msg_id f).
Proof. unfold result_callback. blind_step. Qed.

Lemma blind_register_callback (n : string) (f : nat) : blind (_register_callback n f).
Proof. unfold _register_callback, on_registered. blind_step. Qed.

Lemma blind_run_callback (cb : callback) (f : nat) : blind (run_callback cb f).
Proof.
  destruct cb as [k | n | i]; cbn [run_callback].
  - intros y c. unfold state_of. cbn [futures set_buff].
    destruct (user_callback k _); reflexivity.
  - apply blind_register_callback.
  - apply blind_result_callback.
Qed.

Lemma blind_add_done_callback (f : nat) (cb : callback) :
  blind (add_done_callback f cb).
Proof.
  intros y c. unfold add_done_callback. cbn [futures set_buff].
  destruct (futures c !! f) as [[[] cbs] |]; try reflexivity;
    apply blind_run_callback.
Qed.

Lemma blind_run_callbacks (cbs : list callback) (f : nat) :
  blind (run_callbacks cbs f).
Proof.
  induction cbs as [| cb rest IH]; [apply blind_ret |].
  intros y c. cbn [run_callbacks]. rewrite blind_run_callback.
  destruct (run_callback cb f c) as [c' [e | []]]; cbn [fst snd].
  - destruct callback_errors_propagate; [reflexivity |].
    apply (blind_bind (logger _) (fun _ => run_callbacks rest f));
      [apply blind_logger | intros _; exact IH].
  - apply IH.
Qed.

Lemma blind_set_result (f : nat) (v : value) : blind (set_result f v).
Proof.
  intros y c. unfold set_result. cbn [futures set_buff].
  destruct (futures c !! f) as [fu |]; [| reflexivity].
  apply (blind_run_callbacks (fcallbacks fu) f y
           (set_futures (<[f := mkFuture (Result v) []]> (futures c)) c)).
Qed.

#[local] Hint Resolve blind_result_callback blind_register_callback
  blind_run_callback blind_add_done_callback blind_run_callbacks
  blind_set_result : blind.

Lemma blind_respond (msg_id : Z) (r : svc_result) : blind (respond msg_id r).
Proof. unfold respond. blind_step. Qed.

#[local] Hint Resolve blind_respond : blind.

Lemma blind_dispatch (t i : Z) (v : value) : blind (dispatch t i v).
Proof.
  unfold dispatch, handle_rpc_request, handle_rpc_response, handle_rpc_notice,
    handle_rpc_register.
  blind_step.
Qed.

Lemma set_buff_same (c : RPCConnection) : set_buff (_buff c) c = c.
Proof. destruct c; reflexivity. Qed.

Lemma blind_keeps_buff {A} (m : M A) (c : RPCConnection) :
  blind m -> _buff (fst (m c)) = _buff c.
Proof.
  intros Hm. pose proof (Hm (_buff c) c) as E. rewrite set_buff_same in E.
  rewrite E at 1. reflexivity.
Qed.

End Blind.

(* ===================================================================== *)
(* Frames written by call, notice and register                            *)
(* ===================================================================== *)

Section Wire.
Context {codec : Codec} {serv : Service} {host : Host}.

Lemma pack_request_decodes (i t : Z) (m a : value) (buf : bytes) :
  _pack_request i t m a = inr buf ->
  loads (dumps (VList [m; a])) = Some (VList [m; a]) ->
  decode_frame buf = Some (t, i, VList [m; a]).
Proof.
  unfold _pack_request, decode_frame. intros Hp Hrt.
  destruct (struct_pack _ t i) as [h |] eqn:Hh; [| discriminate].
  injection Hp as <-.
  pose proof (struct_pack_length _ _ _ _ Hh) as Hl.
  rewrite take_app_length', drop_app_length' by (symmetry; exact Hl).
  rewrite (struct_unpack_pack _ _ _ _ Hh), Z.eqb_refl, Hrt. reflexivity.
Qed.

(** C9 (as the code has it): the frame that call writes is a REQUEST and
    the frame that notice writes is a NOTICE, each carrying the drawn
    identifier and a payload that decodes to the pair (method_name, args)
    with args the sequence of arguments.  The frame that register(name)
    writes is a REGISTER frame whose payload decodes to the pair
    ("register", name): its second component is the node name itself, not
    a sequence holding the name.  (When struct.pack refuses the header,
    the operation raises and writes nothing.) *)
Theorem frames_written_decode (c : RPCConnection) (m : value)
  (a : list value) (name : value) (cb : option callback) :
  loads (dumps (VList [m; VList a])) = Some (VList [m; VList a]) ->
  loads (dumps (VList [VStr "register"; name]))
    = Some (VList [VStr "register"; name]) ->
  let i := fst (next (_generator c)) in
  match _pack_request i RPC_REQUEST m (VList a) with
  | inr buf => written (fst (call m a cb c)) = written c ++ [buf]
               /\ decode_frame buf = Some (RPC_REQUEST, i, VList [m; VList a])
  | inl e => call m a cb c = (set_generator (snd (next (_generator c))) c, inl e)
  end
  /\ match _pack_request i RPC_NOTICE m (VList a) with
     | inr buf => written (fst (notice m a c)) = written c ++ [buf]
                  /\ decode_frame buf = Some (RPC_NOTICE, i, VList [m; VList a])
     | inl e => notice m a c = (set_generator (snd (next (_generator c))) c, inl e)
     end
  /\ match _pack_request i RPC_REGISTER (VStr "register") name with
     | inr buf => written (fst (register name cb c)) = written c ++ [buf]
                  /\ decode_frame buf
                     = Some (RPC_REGISTER, i, VList [VStr "register"; name])
     | inl e => register name cb c
                = (set_generator (snd (next (_generator c))) c, inl e)
     end.
Proof.
  intros H1 H2 i. subst i. repeat split.
  - destruct (_pack_request _ RPC_REQUEST m (VList a)) as [e | buf] eqn:Hp.
    + exact (call_raises c m a cb e Hp).
    + rewrite (call_eq c m a cb buf Hp). split; [reflexivity |].
      exact (pack_request_decodes _ _ _ _ _ Hp H1).
  - rewrite notice_eq.
    destruct (_pack_request _ RPC_NOTICE m (VList a)) as [e | buf] eqn:Hp.
    + reflexivity.
    + split; [reflexivity |]. exact (pack_request_decodes _ _ _ _ _ Hp H1).
  - destruct (_pack_request _ RPC_REGISTER _ name) as [e | buf] eqn:Hp.
    + exact (register_raises c name cb e Hp).
    + rewrite (register_eq c name cb buf Hp). split; [reflexivity |].
      exact (pack_request_decodes _ _ _ _ _ Hp H2).
Qed.


End Wire.

(* ===================================================================== *)
(* A rejected registration                                                *)
(* ===================================================================== *)

Section Registration.
Context {codec : Codec} {serv : Service} {host : Host}.

(* Done-callbacks write frames and log; they leave the futures and the
   request table alone. *)
Lemma run_callback_core (cb : callback) (f : nat) (c : RPCConnection) :
  futures (fst (run_callback cb f c)) = futures c
  /\ _request_table (fst (run_callback cb f c)) = _request_table c.
Proof.
  destruct cb as [k | n | i]; cbn [run_callback].
  - destruct (user_callback k _); split; reflexivity.
  - unfold _register_callback, on_registered, bind, future_result.
    destruct (state_of c f) as [| v | e]; cbn; try (split; reflexivity).
    destruct (truthy v); split; reflexivity.
  - unfold result_callback, bind, future_result, lift.
    destruct (state_of c f) as [| v | e]; cbn; try (split; reflexivity).
    destruct (_pack_response i RPC_RESPONSE VNone v); split; reflexivity.
Qed.

Lemma run_callbacks_core (cbs : list callback) (f : nat) (c : RPCConnection) :
  futures (fst (run_callbacks cbs f c)) = futures c
  /\ _request_table (fst (run_callbacks cbs f c)) = _request_table c.
Proof.
  revert c. induction cbs as [| cb rest IH]; intros c; [split; reflexivity |].
  cbn [run_callbacks]. pose proof (run_callback_core cb f c) as [Hf Ht].
  destruct (run_callback cb f c) as [c' [e | []]]; cbn [fst] in *.
  - destruct callback_errors_propagate; [split; assumption |].
    unfold bind, logger, modify.
    destruct (IH (set_log (log c' ++ [LogCallbackException cb e]) c')) as [If It].
    rewrite If, It. split; assumption.
  - destruct (IH c') as [If It]. rewrite If, It. split; assumption.
Qed.

(* The state in which the answer to a registration finds the connection. *)
Lemma register_then_reject (c : RPCConnection) (name : value)
  (cb : option callback) (buf : bytes) :
  _pack_request (fst (next (_generator c))) RPC_REGISTER (VStr "register") name
    = inr buf ->
  handle_rpc_response (fst (next (_generator c))) VNone (VBool false)
    (fst (register name cb c))
  = run_callbacks (callbacks_of cb) (length (futures c))
      (mkConn (_buff c) (snd (next (_generator c)))
         (delete (fst (next (_generator c)))
            (<[fst (next (_generator c)) := length (futures c)]> (_request_table c)))
         (_request_timeout c) (service c)
         (futures c ++ [mkFuture (Result (VBool false)) []])
         (scheduled c (fst (next (_generator c))))
         (written c ++ [buf]) (log c)).
Proof.
  intros Hp. rewrite (register_eq c name cb buf Hp). cbn [fst].
  unfold handle_rpc_response, bind, lookup_request. cbn [_request_table].
  rewrite lookup_insert_eq. cbn [truthy]. unfold modify, set_result.
  cbn [futures set_request_table set_futures _request_table _buff _generator
       _request_timeout service timeouts written log].
  rewrite snoc_lookup_last, snoc_insert_last. reflexivity.
Qed.

(** C8 (as the code has it): when register(name) is answered False, the
    future that register returned, pending until then, is completed with
    the result False, its entry leaves the request table, and the callback
    handed to register is run on the completed future.  When that callback
    is RPCClient._register_callback, it logs the warning "register failed"
    and raises RPCRegisterError(rpc_name) from inside the completion
    callback: with a Future that lets callback errors through, the error
    comes out of handle_rpc_response (into the read that dispatched the
    RESPONSE); otherwise the Future logs it and handle_rpc_response
    returns.  Nothing is handed to the code that created the client. *)
Theorem register_rejection_completes_future (c : RPCConnection) (name : value)
  (cb : option callback) (buf : bytes) :
  _pack_request (fst (next (_generator c))) RPC_REGISTER (VStr "register") name
    = inr buf ->
  let i := fst (next (_generator c)) in
  let f := length (futures c) in
  let c1 := fst (register name cb c) in
  let r := handle_rpc_response i VNone (VBool false) c1 in
  snd (register name cb c) = inr f
  /\ _request_table c1 !! i = Some f
  /\ futures c1 !! f = Some (mkFuture Pending (callbacks_of cb))
  /\ state_of (fst r) f = Result (VBool false)
  /\ _request_table (fst r) !! i = None
  /\ forall rpc, cb = Some (CbRegister rpc) ->
       if callback_errors_propagate
       then snd r = inl (RPCRegisterError rpc)
            /\ log (fst r) = log c ++ [LogWarning "register failed"]
       else snd r = inr tt
            /\ log (fst r)
               = log c ++ [LogWarning "register failed";
                           LogCallbackException (CbRegister rpc)
                             (RPCRegisterError rpc)].
Proof.
  intros Hp i f c1 r. subst r c1 i f.
  rewrite (register_then_reject c name cb buf Hp).
  rewrite (register_eq c name cb buf Hp). cbn [fst snd].
  split; [reflexivity |].
  split; [cbn; apply lookup_insert_eq |].
  split; [cbn; apply snoc_lookup_last |].
  match goal with |- context [run_callbacks ?l ?g ?s] =>
    pose proof (run_callbacks_core l g s) as [Hf Ht] end.
  split; [| split].
  - unfold state_of. rewrite Hf. cbn [futures].
    now rewrite snoc_lookup_last.
  - rewrite Ht. cbn [_request_table]. apply lookup_delete_eq.
  - intros rpc ->. clear Hf Ht. cbn [callbacks_of run_callbacks run_callback].
    unfold _register_callback, bind, future_result, state_of. cbn [futures].
    rewrite snoc_lookup_last. cbn.
    destruct callback_errors_propagate; cbn.
    + split; reflexivity.
    + split; [reflexivity |]. now rewrite <- app_assoc.
Qed.

End Registration.

(* ===================================================================== *)
(* The receive loop                                                       *)
(* ===================================================================== *)

Section Receive.
Context {codec : Codec} {serv : Service} {host : Host}.

Lemma receive_loop_S (fuel : nat) (L : Z) (c : RPCConnection) :
  receive_loop (S fuel) L c =
  match receive_turn L c with
  | Stop r => r
  | Again fr L' c' => add_frame fr (receive_loop fuel L' c')
  end.
Proof.
  cbn [receive_loop]. unfold receive_turn.
  destruct (L >? HEAD_LEN); [| reflexivity].
  destruct (struct_unpack _) as [[[dl t] i] |]; [| reflexivity].
  destruct (L - HEAD_LEN >=? dl); [| reflexivity].
  cbv zeta. destruct (loads _) as [v |]; [| reflexivity].
  destruct (dispatch t i v _) as [c' [e | u]]; reflexivity.
Qed.

(* A turn that stops with the loop left has changed nothing. *)
Lemma turn_stop_drained (L : Z) (c : RPCConnection) (r : recv_result) :
  receive_turn L c = Stop r -> exit r = Drained -> r = mkRecv c Drained [].
Proof.
  unfold receive_turn.
  destruct (L >? HEAD_LEN); [| now intros [= <-]].
  destruct (struct_unpack _) as [[[dl t] i] |]; [| now intros [= <-]].
  destruct (L - HEAD_LEN >=? dl); [| now intros [= <-]].
  cbv zeta. destruct (loads _) as [v |]; [| now intros [= <-]].
  destruct (dispatch t i v _) as [c' [e | u]]; [now intros [= <-] | discriminate].
Qed.

(* What a turn that goes round again has done, for a frame whose length
   field is not negative. *)
Lemma turn_again (L : Z) (c : RPCConnection) (fr : frame) (L' : Z)
  (c' : RPCConnection) :
  L = len (_buff c) ->
  receive_turn L c = Again fr L' c' ->
  0 <= data_length fr ->
  let n := Z.to_nat (HEAD_LEN + data_length fr) in
  (9 < length (_buff c))%nat
  /\ (n <= length (_buff c))%nat /\ (9 <= n)%nat
  /\ struct_unpack (take 9 (_buff c))
     = Some (data_length fr, msg_type fr, msg_id fr)
  /\ loads (take (Z.to_nat (data_length fr)) (drop 9 (_buff c))) = Some (req fr)
  /\ dispatch (msg_type fr) (msg_id fr) (req fr) (set_buff (drop n (_buff c)) c)
     = (c', inr tt)
  /\ _buff c' = drop n (_buff c)
  /\ L' = len (_buff c').
Proof.
  intros HL. unfold receive_turn, HEAD_LEN.
  destruct (Z.gtb_spec L 9) as [Hgt |]; [| discriminate].
  rewrite slice_to_nonneg by lia. change (Z.to_nat 9) with 9%nat.
  destruct (struct_unpack _) as [[[dl t] i] |] eqn:Hh; [| discriminate].
  destruct (Z.geb_spec (L - 9) dl) as [Hge |]; [| discriminate].
  cbv zeta. destruct (loads _) as [v |] eqn:Hv; [| discriminate].
  destruct (dispatch t i v _) as [c2 [e | []]] eqn:Hd; [discriminate |].
  intros [= <- <- <-]. cbn [data_length msg_type msg_id req]. intros Hdl.
  rewrite slice_nonneg in Hv by lia.
  rewrite slice_from_nonneg in Hd |- * by lia.
  replace (9 + dl - 9) with dl in Hv by lia. change (Z.to_nat 9) with 9%nat in Hv.
  unfold len in *. cbn [_buff set_buff].
  pose proof (blind_keeps_buff (dispatch t i v)
    (set_buff (drop (Z.to_nat (9 + dl)) (_buff c)) c) (blind_dispatch t i v)) as Hb.
  rewrite Hd in Hb. cbn [fst _buff set_buff] in Hb.
  repeat split; try assumption; try lia.
  now rewrite Hb.
Qed.

(* More fuel does not change an invocation that ended. *)
Lemma receive_loop_more_fuel (f : nat) :
  forall (L : Z) (c : RPCConnection) (f' : nat),
    exit (receive_loop f L c) <> Diverged -> (f <= f')%nat ->
    receive_loop f' L c = receive_loop f L c.
Proof.
  induction f as [| f IH]; intros L c f' Hx Hle; [now contradict Hx |].
  destruct f' as [| f']; [lia |].
  rewrite !receive_loop_S in *.
  destruct (receive_turn L c) as [r | fr L' c']; [reflexivity |].
  unfold add_frame in *. cbn [exit] in Hx.
  rewrite (IH L' c' f') by (assumption || lia). reflexivity.
Qed.

(* Fuel beyond the length of the buffer is enough when no frame
   dispatched had a negative length field. *)
Lemma receive_loop_enough_fuel (F : nat) :
  forall (c : RPCConnection) (f : nat),
    exit (receive_loop F (len (_buff c)) c) <> Diverged ->
    Forall (fun fr => 0 <= data_length fr)
           (dispatched (receive_loop F (len (_buff c)) c)) ->
    (length (_buff c) < f)%nat ->
    receive_loop f (len (_buff c)) c = receive_loop F (len (_buff c)) c.
Proof.
  induction F as [| F IH]; intros c f Hx Hnn Hlen; [now contradict Hx |].
  destruct f as [| f]; [lia |].
  rewrite !receive_loop_S in *.
  destruct (receive_turn (len (_buff c)) c) as [r | fr L' c'] eqn:Ht;
    [reflexivity |].
  unfold add_frame in *. cbn [exit dispatched] in Hx, Hnn.
  apply Forall_cons in Hnn as [Hfr Hnn].
  destruct (turn_again _ c fr L' c' eq_refl Ht Hfr) as (H9 & Hn & Hn9 & _ & _ & _ & Hb & ->).
  rewrite (IH c' f); try assumption; [reflexivity |].
  rewrite Hb, length_drop. lia.
Qed.

Lemma set_buff_set_buff (y z : bytes) (c : RPCConnection) :
  set_buff y (set_buff z c) = set_buff y c.
Proof. reflexivity. Qed.

(* A turn on the buffer followed by more bytes x, against the turn on the
   buffer alone: when the longer buffer holds no complete frame, neither
   does the shorter. *)
Lemma turn_chunk_stop (c : RPCConnection) (x : bytes) (r : recv_result) :
  receive_turn (len (_buff c ++ x)) (set_buff (_buff c ++ x) c) = Stop r ->
  exit r = Drained ->
  receive_turn (len (_buff c)) c = Stop (mkRecv c Drained []).
Proof.
  unfold receive_turn, HEAD_LEN, len. cbn [_buff set_buff].
  rewrite length_app.
  destruct (Z.gtb_spec (Z.of_nat (length (_buff c))) 9) as [Hgt | Hle];
    [| reflexivity].
  destruct (Z.gtb_spec (Z.of_nat (length (_buff c) + length x)) 9); [| lia].
  rewrite !slice_to_nonneg by lia. change (Z.to_nat 9) with 9%nat.
  rewrite take_app_le by lia.
  destruct (struct_unpack _) as [[[dl t] i] |]; [| now intros [= <-]].
  destruct (Z.geb_spec (Z.of_nat (length (_buff c)) - 9) dl) as [Hge |];
    [| reflexivity].
  destruct (Z.geb_spec (Z.of_nat (length (_buff c) + length x) - 9) dl); [| lia].
  cbv zeta. destruct (loads _) as [v |]; [| now intros [= <-]].
  destruct (dispatch t i v _) as [c' [e | u]]; [now intros [= <-] | discriminate].
Qed.

(* When the longer buffer starts with a complete frame, the shorter one
   either does not hold all of it yet, or the turn on it dispatches the
   same frame in the same way. *)
Lemma turn_chunk_again (c : RPCConnection) (x : bytes) (fr : frame) (L2 : Z)
  (c2 : RPCConnection) :
  receive_turn (len (_buff c ++ x)) (set_buff (_buff c ++ x) c) = Again fr L2 c2 ->
  0 <= data_length fr ->
  receive_turn (len (_buff c)) c = Stop (mkRecv c Drained [])
  \/ exists c2a,
       receive_turn (len (_buff c)) c = Again fr (len (_buff c2a)) c2a
       /\ c2 = set_buff (_buff c2a ++ x) c2a
       /\ L2 = len (_buff c2a ++ x).
Proof.
  intros Ht Hdl.
  destruct (turn_again _ _ fr L2 c2 eq_refl Ht Hdl)
    as (H9 & Hn & Hn9 & Hh & Hv & Hd & Hb & HL).
  cbn [_buff set_buff] in *. rewrite set_buff_set_buff in Hd.
  clear Ht. unfold receive_turn, HEAD_LEN, len in *.
  destruct (Z.gtb_spec (Z.of_nat (length (_buff c))) 9) as [Hgt | Hle];
    [| left; reflexivity].
  rewrite slice_to_nonneg by lia. change (Z.to_nat 9) with 9%nat.
  rewrite take_app_le in Hh by lia. rewrite Hh.
  destruct (Z.geb_spec (Z.of_nat (length (_buff c)) - 9) (data_length fr))
    as [Hge |]; [| left; reflexivity].
  right. cbv zeta.
  rewrite slice_nonneg, slice_from_nonneg by lia.
  replace (9 + data_length fr - 9) with (data_length fr) by lia.
  change (Z.to_nat 9) with 9%nat.
  rewrite drop_app_le, take_app_le in Hv by (rewrite ?length_drop; lia).
  rewrite Hv.
  rewrite drop_app_le in Hd, Hb by lia.
  set (n := Z.to_nat (9 + data_length fr)) in *.
  pose proof (blind_dispatch (msg_type fr) (msg_id fr) (req fr)
                (drop n (_buff c) ++ x) (set_buff (drop n (_buff c)) c)) as Hbl.
  rewrite set_buff_set_buff, Hd in Hbl.
  pose proof (blind_keeps_buff (dispatch (msg_type fr) (msg_id fr) (req fr))
                (set_buff (drop n (_buff c)) c) (blind_dispatch _ _ _)) as Hk.
  destruct (dispatch (msg_type fr) (msg_id fr) (req fr)
              (set_buff (drop n (_buff c)) c)) as [c2a out].
  cbn [fst snd _buff set_buff] in *. injection Hbl as -> <-.
  exists c2a. rewrite Hk. destruct fr; cbn [data_length msg_type msg_id req] in *.
  repeat split. rewrite HL. reflexivity.
Qed.

Lemma receive_loop_chunk (f : nat) :
  forall (c : RPCConnection) (x : bytes),
    let r := receive_loop f (len (_buff c ++ x)) (set_buff (_buff c ++ x) c) in
    let ra := receive_loop f (len (_buff c)) c in
    let c' := conn_after ra in
    let rb := receive_loop f (len (_buff c' ++ x)) (set_buff (_buff c' ++ x) c') in
    exit r = Drained ->
    Forall (fun fr => 0 <= data_length fr) (dispatched r) ->
    exit ra = Drained /\ exit rb = Drained
    /\ conn_after rb = conn_after r
    /\ dispatched r = dispatched ra ++ dispatched rb.
Proof.
  induction f as [| f IH]; intros c x; cbv zeta; [discriminate |].
  rewrite (receive_loop_S f (len (_buff c ++ x))).
  destruct (receive_turn (len (_buff c ++ x)) _) as [r0 | fr L2 c2] eqn:Ht.
  - intros Hx Hnn.
    rewrite (receive_loop_S f (len (_buff c))), (turn_chunk_stop c x r0 Ht Hx).
    cbn [conn_after exit dispatched]. rewrite receive_loop_S, Ht. auto.
  - unfold add_frame at 1 2. cbn [exit dispatched]. intros Hx Hnn.
    apply Forall_cons in Hnn as [Hfr Hnn].
    destruct (turn_chunk_again c x fr L2 c2 Ht Hfr) as [Hs | (c2a & Ha & -> & ->)].
    + rewrite (receive_loop_S f (len (_buff c))), Hs.
      cbn [conn_after exit dispatched]. rewrite receive_loop_S, Ht.
      unfold add_frame. cbn [conn_after exit dispatched]. auto.
    + destruct (IH c2a x Hx Hnn) as (Ea & Eb & Ec & Ed).
      rewrite (receive_loop_S f (len (_buff c))), Ha.
      unfold add_frame. cbn [conn_after exit dispatched].
      rewrite (receive_loop_more_fuel f _ _ (S f)) by (rewrite ?Eb; (discriminate || lia)).
      rewrite Ed. auto.
Qed.

Lemma on_receive_split (c : RPCConnection) (a b : bytes) :
  let r := on_receive c (a ++ b) in
  let ra := on_receive c a in
  let rb := on_receive (conn_after ra) b in
  exit r = Drained ->
  Forall (fun fr => 0 <= data_length fr) (dispatched r) ->
  exit ra = Drained /\ exit rb = Drained
  /\ conn_after rb = conn_after r
  /\ dispatched r = dispatched ra ++ dispatched rb.
Proof.
  cbv zeta. unfold on_receive. cbn [_buff set_buff].
  set (ca := set_buff (_buff c ++ a) c).
  replace (_buff c ++ a ++ b) with (_buff ca ++ b) by (cbn; now rewrite app_assoc).
  replace (set_buff (_buff ca ++ b) c) with (set_buff (_buff ca ++ b) ca)
    by reflexivity.
  replace (_buff c ++ a) with (_buff ca) by reflexivity.
  set (F := S (length (_buff ca ++ b))).
  intros Hx Hnn.
  destruct (receive_loop_chunk F ca b Hx Hnn) as (Ea & Eb & Ec & Ed).
  rewrite Ed in Hnn. apply Forall_app in Hnn as [Hna Hnb].
  assert (Ra : receive_loop (S (length (_buff ca))) (len (_buff ca)) ca
               = receive_loop F (len (_buff ca)) ca).
  { apply receive_loop_enough_fuel; [rewrite Ea; discriminate | assumption | lia]. }
  rewrite Ra.
  set (c' := conn_after (receive_loop F (len (_buff ca)) ca)) in *.
  assert (Rb : receive_loop (S (length (_buff c' ++ b))) (len (_buff c' ++ b))
                 (set_buff (_buff c' ++ b) c')
               = receive_loop F (len (_buff c' ++ b)) (set_buff (_buff c' ++ b) c')).
  { apply (receive_loop_enough_fuel F (set_buff (_buff c' ++ b) c'));
      cbn [_buff set_buff]; [rewrite Eb; discriminate | assumption | lia]. }
  rewrite Rb. auto.
Qed.

(** C4 (as the code has it): take bytes that, given to on_receive in one
    piece, are worked off with the loop left in the end (no failed loads,
    no exception out of a handler) and with no negative length field in a
    dispatched frame.  Then giving the same bytes in any number of chunks,
    one on_receive per chunk, dispatches the same frames in the same
    order, every read again leaves its loop, and the connection ends up
    the same. *)
Theorem chunking_invariant_when_drained (chunks : list bytes) :
  forall c : RPCConnection,
    chunks <> [] ->
    exit (on_receive c (concat chunks)) = Drained ->
    Forall (fun fr => 0 <= data_length fr)
           (dispatched (on_receive c (concat chunks))) ->
    dispatched (on_receive_chunks c chunks) = dispatched (on_receive c (concat chunks))
    /\ exit (on_receive_chunks c chunks) = Drained
    /\ conn_after (on_receive_chunks c chunks)
       = conn_after (on_receive c (concat chunks)).
Proof.
  induction chunks as [| d rest IH]; intros c Hne Hx Hnn; [congruence |].
  destruct rest as [| d' rest'].
  - clear IH. cbn [concat on_receive_chunks conn_after exit dispatched] in *.
    rewrite (app_nil_r d) in *. rewrite app_nil_r. auto.
  - remember (d' :: rest') as rest eqn:Hrest.
    cbn [concat] in *.
    destruct (on_receive_split c d (concat rest) Hx Hnn) as (Ea & Eb & Ec & Ed).
    rewrite Ed in Hnn. apply Forall_app in Hnn as [_ Hnb].
    assert (Hr : rest <> []) by (subst rest; discriminate).
    destruct (IH (conn_after (on_receive c d)) Hr Eb Hnb) as (I1 & I2 & I3).
    cbn [on_receive_chunks conn_after exit dispatched].
    rewrite I1, I2, I3, Ec, Ed. subst rest. auto.
Qed.

Lemma turn_again_len (L : Z) (c : RPCConnection) (fr : frame) (L' : Z)
  (c' : RPCConnection) :
  receive_turn L c = Again fr L' c' -> L' = len (_buff c').
Proof.
  unfold receive_turn.
  destruct (L >? HEAD_LEN); [| discriminate].
  destruct (struct_unpack _) as [[[dl t] i] |]; [| discriminate].
  destruct (L - HEAD_LEN >=? dl); [| discriminate].
  cbv zeta. destruct (loads _) as [v |]; [| discriminate].
  match goal with |- context [dispatch t i v ?s] =>
    pose proof (blind_keeps_buff (dispatch t i v) s (blind_dispatch t i v)) as Hk;
    destruct (dispatch t i v s) as [c2 [e | u]]; [discriminate |] end.
  intros [= <- <- <-]. cbn [fst] in Hk. now rewrite Hk.
Qed.

(* A payload that is not empty has been cut off the buffer. *)
Lemma slice_nonempty_shrinks {A} (b : list A) (j : Z) :
  slice b 9 j <> [] -> (length (slice_from b j) < length b)%nat.
Proof.
  unfold slice, slice_from, slice_index, len. intros Hne.
  match type of Hne with
  | take ?k _ <> _ =>
      destruct (Nat.eq_dec k 0%nat) as [E | E];
        [rewrite E in Hne; now rewrite take_0 in Hne |]
  end.
  rewrite length_drop.
  destruct (Z.ltb_spec j 0); destruct (Z.ltb_spec 9 0); lia.
Qed.

(* With a codec that refuses the empty payload, as msgpack does, every
   turn that goes round again has shortened the buffer, and the fuel
   on_receive starts with is never used up: the loop ends. *)
Lemma receive_loop_ends (f : nat) :
  loads [] = None ->
  forall c : RPCConnection,
    (length (_buff c) < f)%nat ->
    exit (receive_loop f (len (_buff c)) c) <> Diverged.
Proof.
  intros Hempty. induction f as [| f IH]; intros c Hlen; [lia |].
  rewrite receive_loop_S.
  destruct (receive_turn (len (_buff c)) c) as [r | fr L' c'] eqn:Ht.
  - revert Ht. unfold receive_turn.
    destruct (_ >? HEAD_LEN); [| now intros [= <-]].
    destruct (struct_unpack _) as [[[dl t] i] |]; [| now intros [= <-]].
    destruct (_ >=? dl); [| now intros [= <-]].
    cbv zeta. destruct (loads (slice _ _ _)) as [v |]; [| now intros [= <-]].
    destruct (dispatch t i v _) as [c' [e | u]]; [now intros [= <-] | discriminate].
  - unfold add_frame. cbn [exit].
    rewrite (turn_again_len _ _ _ _ _ Ht). apply IH.
    revert Ht. unfold receive_turn.
    destruct (_ >? HEAD_LEN); [| discriminate].
    destruct (struct_unpack _) as [[[dl t] i] |]; [| discriminate].
    destruct (_ >=? dl); [| discriminate].
    cbv zeta. destruct (loads (slice _ _ _)) as [v |] eqn:Hv; [| discriminate].
    match goal with |- context [dispatch t i v ?s] =>
      pose proof (blind_keeps_buff (dispatch t i v) s (blind_dispatch t i v)) as Hk;
      destruct (dispatch t i v s) as [c2 [e | u]]; [discriminate |] end.
    intros [= _ _ <-]. cbn [fst _buff set_buff] in Hk. rewrite Hk.
    unfold HEAD_LEN in *.
    assert (Hne : slice (_buff c) 9 (9 + dl) <> []).
    { intros E. rewrite E, Hempty in Hv. discriminate. }
    pose proof (slice_nonempty_shrinks _ _ Hne). lia.
Qed.

Lemma on_receive_ends (c : RPCConnection) (data : bytes) :
  loads [] = None -> exit (on_receive c data) <> Diverged.
Proof.
  intros Hempty. unfold on_receive.
  apply (receive_loop_ends _ Hempty (set_buff (_buff c ++ data) c)).
  cbn. lia.
Qed.




Lemma dispatch_response (i : Z) (e r : value) (c : RPCConnection) :
  dispatch RPC_RESPONSE i (VList [e; r]) c = handle_rpc_response i e r c.
Proof. reflexivity. Qed.

(** C2 (as the code has it): a RESPONSE whose identifier is in the request
    table and whose error is non-empty makes handle_rpc_response raise
    RPCServerError(err) on the spot; the connection is left as it was: the
    entry stays in the table and the future is not completed.  The
    exception leaves the loop of on_receive: the invocation ends with it,
    and the bytes buffered after that frame stay in the buffer, not
    dispatched. *)
Theorem response_error_raises_in_place (c : RPCConnection) (msg_id : Z)
  (f : nat) (err r : value) (h payload rest : bytes) :
  _request_table c !! msg_id = Some f ->
  truthy err = true ->
  _buff c = [] ->
  struct_unpack h = Some (len payload, RPC_RESPONSE, msg_id) ->
  loads payload = Some (VList [err; r]) ->
  payload <> [] ->
  handle_rpc_response msg_id err r c = (c, inl (RPCServerError err))
  /\ on_receive c (h ++ payload ++ rest)
     = mkRecv (set_buff rest c) (Raised (RPCServerError err))
         [mkFrame (len payload) RPC_RESPONSE msg_id (VList [err; r])].
Proof.
  intros Ht Hv Hb Hh Hl Hp. split.
  - exact (handle_rpc_response_error c msg_id f err r Ht Hv).
  - assert (H9 : length h = 9%nat).
    { destruct h as [| ? [| ? [| ? [| ? [| ? [| ? [| ? [| ? [| ? [| ? ?]]]]]]]]]];
        try discriminate; reflexivity. }
    assert (Hpl : (0 < length payload)%nat) by (destruct payload; cbn; [congruence | lia]).
    unfold on_receive. rewrite Hb, app_nil_l. cbn [_buff set_buff].
    rewrite receive_loop_S. unfold receive_turn, HEAD_LEN, len in *.
    cbn [_buff set_buff].
    destruct (Z.gtb_spec (Z.of_nat (length (h ++ payload ++ rest))) 9) as [_ | Hn];
      [| rewrite !length_app in Hn; lia].
    rewrite slice_to_nonneg by lia. change (Z.to_nat 9) with 9%nat.
    rewrite take_app_length' by (symmetry; exact H9).
    rewrite Hh.
    destruct (Z.geb_spec (Z.of_nat (length (h ++ payload ++ rest)) - 9)
                (Z.of_nat (length payload))) as [_ | Hn];
      [| rewrite !length_app in Hn; lia].
    rewrite slice_nonneg, slice_from_nonneg by lia.
    replace (9 + Z.of_nat (length payload) - 9) with (Z.of_nat (length payload)) by lia.
    replace (Z.to_nat (9 + Z.of_nat (length payload)))
      with (length h + length payload)%nat by lia.
    change (Z.to_nat 9) with 9%nat. rewrite Nat2Z.id.
    rewrite drop_app_length' by (symmetry; exact H9).
    rewrite take_app_length.
    rewrite app_assoc, drop_app_length' by (rewrite length_app; reflexivity).
    rewrite Hl. cbv zeta.
    rewrite dispatch_response, set_buff_set_buff.
    rewrite (handle_rpc_response_error (set_buff rest c) msg_id f err r Ht Hv).
    reflexivity.
Qed.

End Receive.

(* ===================================================================== *)
(* The engine on concrete inputs                                          *)
(* ===================================================================== *)

Section Examples.
#[local] Existing Instance msgpack.
#[local] Existing Instance demo_service.
#[local] Existing Instance quiet_host.

(** C1, refuted as stated: call("echo", 1) on a connection with a request
    time-out of 5 returns future 0 and schedules the time-out of
    identifier 0; when that time-out fires with no RESPONSE received,
    message_timeout_cb raises RPCTimeOutError(0) and removes the entry,
    and future 0 is still pending: it has not been completed with a
    time-out failure. *)
Lemma timeout_leaves_future_pending :
  snd (call (VStr "echo") [VInt 1] None (demo_conn 5)) = inr 0%nat
  /\ timeouts (calling 5) = [(5, 0)]
  /\ snd (message_timeout_cb 0 (calling 5)) = inl (RPCTimeOutError 0)
  /\ _request_table (fst (message_timeout_cb 0 (calling 5))) !! 0 = None
  /\ state_of (fst (message_timeout_cb 0 (calling 5))) 0 = Pending
  /\ state_of (fst (message_timeout_cb 0 (calling 5))) 0
     <> Failed (RPCTimeOutError 0).
Proof.
  assert (E : state_of (fst (message_timeout_cb 0 (calling 5))) 0 = Pending)
    by (vm_compute; reflexivity).
  repeat split; try (vm_compute; reflexivity).
  rewrite E. discriminate.
Qed.

Lemma timeout_evicts_and_raises_witness :
  snd (message_timeout_cb 0 (calling 5)) = inl (RPCTimeOutError 0)
  /\ _request_table (fst (message_timeout_cb 0 (calling 5)))
     = delete 0 (_request_table (calling 5))
  /\ futures (fst (message_timeout_cb 0 (calling 5))) = futures (calling 5)
  /\ state_of (fst (message_timeout_cb 0 (calling 5))) 0 = state_of (calling 5) 0
  /\ forall err r,
       snd (handle_rpc_response 0 err r (fst (message_timeout_cb 0 (calling 5))))
       = inr tt
       /\ futures (fst (handle_rpc_response 0 err r
                          (fst (message_timeout_cb 0 (calling 5)))))
          = futures (calling 5)
       /\ log (fst (handle_rpc_response 0 err r
                      (fst (message_timeout_cb 0 (calling 5)))))
          = log (calling 5) ++ [LogDebug "response time out?"].
Proof.
  apply (timeout_evicts_and_raises (calling 5) 0 0%nat).
  vm_compute. reflexivity.
Defined.

(** C2, refuted as stated: with call 0 outstanding, one read brings a
    RESPONSE for 0 whose error is "boom", followed by a NOTICE.
    on_receive ends by raising RPCServerError("boom"); entry 0 is still in
    the request table, future 0 is still pending (not failed), and the
    NOTICE behind it has not been dispatched: the service was not called
    and the frame is still in the buffer. *)
Lemma response_error_aborts_the_read :
  let r := on_receive (calling 0) (response_boom 0 ++ notice_log_hi 1) in
  exit r = Raised (RPCServerError (VStr "boom"))
  /\ _request_table (conn_after r) !! 0 = Some 0%nat
  /\ state_of (conn_after r) 0 = Pending
  /\ state_of (conn_after r) 0 <> Failed (RPCServerError (VStr "boom"))
  /\ dispatched r
     = [mkFrame 7 RPC_RESPONSE 0 (VList [VStr "boom"; VNone])]
  /\ service (conn_after r) = []
  /\ _buff (conn_after r) = notice_log_hi 1.
Proof.
  cbv zeta.
  assert (E : state_of (conn_after (on_receive (calling 0)
                (response_boom 0 ++ notice_log_hi 1))) 0 = Pending)
    by (vm_compute; reflexivity).
  repeat split; try (vm_compute; reflexivity).
  rewrite E. discriminate.
Qed.

Lemma response_error_raises_in_place_witness :
  handle_rpc_response 0 (VStr "boom") VNone (calling 0)
  = (calling 0, inl (RPCServerError (VStr "boom")))
  /\ on_receive (calling 0)
       (take 9 (response_boom 0) ++ drop 9 (response_boom 0) ++ notice_log_hi 1)
     = mkRecv (set_buff (notice_log_hi 1) (calling 0))
         (Raised (RPCServerError (VStr "boom")))
         [mkFrame (len (drop 9 (response_boom 0))) RPC_RESPONSE 0
            (VList [VStr "boom"; VNone])].
Proof.
  apply (response_error_raises_in_place (calling 0) 0 0%nat (VStr "boom") VNone
           (take 9 (response_boom 0)) (drop 9 (response_boom 0)) (notice_log_hi 1)).
  - vm_compute. reflexivity.
  - reflexivity.
  - reflexivity.
  - vm_compute. reflexivity.
  - vm_compute. reflexivity.
  - vm_compute. discriminate.
Defined.

(** C3, the code at the failing input: one read brings a NOTICE frame
    whose payload (the byte 0xc1) does not decode, followed by a complete
    NOTICE frame for log("hi").  on_receive logs the decode error and
    returns: nothing is dispatched, the service is not called, and the
    second frame is left in the buffer.  It is dispatched only by the next
    read, together with what that read brings. *)
Theorem decode_failure_ends_the_read :
  let r := on_receive (demo_conn 0) (undecodable 0 ++ notice_log_hi 1) in
  loads [xc1] = None
  /\ exit r = Returned
  /\ dispatched r = []
  /\ service (conn_after r) = []
  /\ log (conn_after r) = [LogDecodeError]
  /\ _buff (conn_after r) = notice_log_hi 1
  /\ dispatched (on_receive (conn_after r) (notice_log_hi 2))
     = [mkFrame 9 RPC_NOTICE 1 (VList [VStr "log"; VList [VStr "hi"]]);
        mkFrame 9 RPC_NOTICE 2 (VList [VStr "log"; VList [VStr "hi"]])].
Proof. cbv zeta. repeat split; vm_compute; reflexivity. Qed.

(** C4, refuted as stated: with call 0 outstanding, the bytes of a
    RESPONSE for 0 with error "boom" followed by a NOTICE dispatch the
    RESPONSE alone when they come as one chunk (the read ends with
    RPCServerError), and the RESPONSE and then the NOTICE when they come
    as two chunks. *)
Lemma chunking_changes_what_is_dispatched :
  dispatched (on_receive (calling 0) (concat [response_boom 0; notice_log_hi 1]))
  = [mkFrame 7 RPC_RESPONSE 0 (VList [VStr "boom"; VNone])]
  /\ dispatched (on_receive_chunks (calling 0) [response_boom 0; notice_log_hi 1])
     = [mkFrame 7 RPC_RESPONSE 0 (VList [VStr "boom"; VNone]);
        mkFrame 9 RPC_NOTICE 1 (VList [VStr "log"; VList [VStr "hi"]])]
  /\ dispatched (on_receive_chunks (calling 0) [response_boom 0; notice_log_hi 1])
     <> dispatched (on_receive (calling 0)
                      (concat [response_boom 0; notice_log_hi 1])).
Proof.
  assert (E1 : dispatched (on_receive (calling 0)
                 (concat [response_boom 0; notice_log_hi 1]))
               = [mkFrame 7 RPC_RESPONSE 0 (VList [VStr "boom"; VNone])])
    by (vm_compute; reflexivity).
  assert (E2 : dispatched (on_receive_chunks (calling 0)
                 [response_boom 0; notice_log_hi 1])
               = [mkFrame 7 RPC_RESPONSE 0 (VList [VStr "boom"; VNone]);
                  mkFrame 9 RPC_NOTICE 1 (VList [VStr "log"; VList [VStr "hi"]])])
    by (vm_compute; reflexivity).
  split; [exact E1 | split; [exact E2 |]]. rewrite E1, E2. discriminate.
Qed.

(* Two NOTICE frames cut into three chunks in the middle of a header and
   in the middle of a payload. *)
Lemma chunking_invariant_when_drained_witness :
  let chunks := [take 4 (notice_log_hi 0);
                 drop 4 (notice_log_hi 0) ++ take 11 (notice_log_hi 1);
                 drop 11 (notice_log_hi 1)] in
  dispatched (on_receive_chunks (demo_conn 0) chunks)
  = dispatched (on_receive (demo_conn 0) (concat chunks))
  /\ exit (on_receive_chunks (demo_conn 0) chunks) = Drained
  /\ conn_after (on_receive_chunks (demo_conn 0) chunks)
     = conn_after (on_receive (demo_conn 0) (concat chunks)).
Proof.
  cbv zeta. apply chunking_invariant_when_drained.
  - discriminate.
  - vm_compute. reflexivity.
  - assert (E : dispatched (on_receive (demo_conn 0)
                  (concat [take 4 (notice_log_hi 0);
                           drop 4 (notice_log_hi 0) ++ take 11 (notice_log_hi 1);
                           drop 11 (notice_log_hi 1)]))
                = [mkFrame 9 RPC_NOTICE 0 (VList [VStr "log"; VList [VStr "hi"]]);
                   mkFrame 9 RPC_NOTICE 1 (VList [VStr "log"; VList [VStr "hi"]])])
      by (vm_compute; reflexivity).
    rewrite E. repeat constructor; cbn; lia.
Defined.



(** C8, refuted as stated: RPCClient(address, rpc_name="nodeA") issues
    register("nodeA") with its internal _register_callback and returns
    the client; no pending result and no error reach the code that created
    it.  When the RESPONSE (None, False) arrives, RPCRegisterError is
    raised inside that completion callback.  With a Future that logs
    callback errors, on_receive then ends normally and the error is a log
    line; with a Future that lets them through, it comes out of on_receive
    into the read path of the transport.  In neither case does it reach
    what issued register(). *)
Lemma register_rejection_ends_in_the_callback :
  (exists c : RPCConnection,
     client_conn quiet_host = Some c
     /\ futures c = [mkFuture Pending [CbRegister "nodeA"]]
     /\ exit (on_receive (host := quiet_host) c (response_false 0)) = Drained
     /\ log (conn_after (on_receive (host := quiet_host) c (response_false 0)))
        = [LogWarning "register failed";
           LogCallbackException (CbRegister "nodeA") (RPCRegisterError "nodeA")])
  /\ (exists c : RPCConnection,
        client_conn loud_host = Some c
        /\ futures c = [mkFuture Pending [CbRegister "nodeA"]]
        /\ exit (on_receive (host := loud_host) c (response_false 0))
           = Raised (RPCRegisterError "nodeA")
        /\ log (conn_after (on_receive (host := loud_host) c (response_false 0)))
           = [LogWarning "register failed"]).
Proof.
  split.
  - exists (fst (register (host := quiet_host) (VStr "nodeA")
                   (Some (CbRegister "nodeA")) (demo_conn 0))).
    repeat split; vm_compute; reflexivity.
  - exists (fst (register (host := loud_host) (VStr "nodeA")
                   (Some (CbRegister "nodeA")) (demo_conn 0))).
    repeat split; vm_compute; reflexivity.
Qed.

Lemma register_rejection_completes_future_witness :
  let c := demo_conn 0 in
  let cb := Some (CbRegister "nodeA") in
  let c1 := fst (register (VStr "nodeA") cb c) in
  let r := handle_rpc_response 0 VNone (VBool false) c1 in
  snd (register (VStr "nodeA") cb c) = inr 0%nat
  /\ _request_table c1 !! 0 = Some 0%nat
  /\ futures c1 !! 0%nat = Some (mkFuture Pending [CbRegister "nodeA"])
  /\ state_of (fst r) 0 = Result (VBool false)
  /\ _request_table (fst r) !! 0 = None
  /\ forall rpc, cb = Some (CbRegister rpc) ->
       snd r = inr tt
       /\ log (fst r)
          = [LogWarning "register failed";
             LogCallbackException (CbRegister rpc) (RPCRegisterError rpc)].
Proof.
  assert (Hp : _pack_request (fst (next (_generator (demo_conn 0)))) RPC_REGISTER
                 (VStr "register") (VStr "nodeA") = inr register_nodeA)
    by (vm_compute; reflexivity).
  exact (register_rejection_completes_future (demo_conn 0) (VStr "nodeA")
           (Some (CbRegister "nodeA")) register_nodeA Hp).
Defined.

(** C9, refuted as stated: the REGISTER frame that register("nodeA")
    writes decodes to the pair ("register", "nodeA"); its second component
    is the string "nodeA", not a sequence whose sole element is the
    name. *)
Lemma register_payload_holds_bare_name :
  written (fst (register (VStr "nodeA") None (demo_conn 0))) = [register_nodeA]
  /\ decode_frame register_nodeA
     = Some (RPC_REGISTER, 0, VList [VStr "register"; VStr "nodeA"])
  /\ decode_frame register_nodeA
     <> Some (RPC_REGISTER, 0, VList [VStr "register"; VList [VStr "nodeA"]]).
Proof.
  assert (E : decode_frame register_nodeA
              = Some (RPC_REGISTER, 0, VList [VStr "register"; VStr "nodeA"]))
    by (vm_compute; reflexivity).
  split; [vm_compute; reflexivity | split; [exact E |]]. rewrite E. discriminate.
Qed.

Lemma frames_written_decode_witness :
  let c := demo_conn 0 in
  let m := VStr "echo" in
  let a := [VInt 1] in
  let name := VStr "nodeA" in
  let i := fst (next (_generator c)) in
  match _pack_request i RPC_REQUEST m (VList a) with
  | inr buf => written (fst (call m a None c)) = written c ++ [buf]
               /\ decode_frame buf = Some (RPC_REQUEST, i, VList [m; VList a])
  | inl e => call m a None c = (set_generator (snd (next (_generator c))) c, inl e)
  end
  /\ match _pack_request i RPC_NOTICE m (VList a) with
     | inr buf => written (fst (notice m a c)) = written c ++ [buf]
                  /\ decode_frame buf = Some (RPC_NOTICE, i, VList [m; VList a])
     | inl e => notice m a c = (set_generator (snd (next (_generator c))) c, inl e)
     end
  /\ match _pack_request i RPC_REGISTER (VStr "register") name with
     | inr buf => written (fst (register name None c)) = written c ++ [buf]
                  /\ decode_frame buf
                     = Some (RPC_REGISTER, i, VList [VStr "register"; name])
     | inl e => register name None c
                = (set_generator (snd (next (_generator c))) c, inl e)
     end.
Proof.
  apply (frames_written_decode (demo_conn 0) (VStr "echo") [VInt 1]
           (VStr "nodeA") None).
  - vm_compute. reflexivity.
  - vm_compute. reflexivity.
Defined.

End Examples.

(* msgpack refuses the empty payload, so on_receive always ends. *)
Lemma on_receive_ends_msgpack {serv : Service} {host : Host}
  (c : RPCConnection) (data : bytes) :
  exit (on_receive (codec := msgpack) c data) <> Diverged.
Proof. apply on_receive_ends. reflexivity. Qed.

(* ===================================================================== *)
(* More on the identifier generator                                       *)
(* ===================================================================== *)

(** X1: every identifier the generator yields lies in [0, 2^30]. *)
Theorem ids_stay_in_range (n : N) : 0 <= nth_id n <= 2 ^ 30.
Proof.
  rewrite nth_id_mod. change (2 ^ 30) with 1073741824.
  pose proof (Z.mod_pos_bound (Z.of_N n) 1073741825). lia.
Qed.

(** X2: two calls of next that are at most 2^30 calls apart yield
    different identifiers: an identifier is not reused before 2^30 + 1
    further identifiers have been drawn. *)
Theorem ids_differ_within_a_round (n m : N) :
  (n < m)%N -> (m <= n + 2 ^ 30)%N -> nth_id n <> nth_id m.
Proof.
  intros Hlt Hle. rewrite !nth_id_mod.
  change (2 ^ 30)%N with 1073741824%N in Hle.
  intros E. apply N2Z.inj_lt in Hlt. apply N2Z.inj_le in Hle.
  rewrite N2Z.inj_add in Hle. change (Z.of_N 1073741824) with 1073741824 in Hle.
  pose proof (N2Z.is_nonneg n).
  revert E. Z.div_mod_to_equations. lia.
Qed.

Lemma ids_differ_within_a_round_witness : nth_id 0 <> nth_id (2 ^ 30).
Proof.
  apply (ids_differ_within_a_round 0 (2 ^ 30)); [reflexivity |].
  vm_compute. discriminate.
Defined.

(* ===================================================================== *)
(* Responses and time-outs, in either order                               *)
(* ===================================================================== *)

Section Settled.
Context {codec : Codec} {serv : Service} {host : Host}.

Lemma message_timeout_cb_absent (c : RPCConnection) (msg_id : Z) :
  _request_table c !! msg_id = None ->
  message_timeout_cb msg_id c
  = (set_log (log c ++ [LogDebug "not exist, timeout?"]) c, inr tt).
Proof.
  intros H. unfold message_timeout_cb, bind, lookup_request. rewrite H. reflexivity.
Qed.

(* handle_rpc_response on an entry without error: the entry goes, the
   future gets the result, its callbacks run. *)
Lemma handle_rpc_response_ok (c : RPCConnection) (msg_id : Z) (f : nat)
  (fu : Future) (err r : value) :
  _request_table c !! msg_id = Some f ->
  futures c !! f = Some fu ->
  truthy err = false ->
  handle_rpc_response msg_id err r c
  = run_callbacks (fcallbacks fu) f
      (set_futures (<[f := mkFuture (Result r) []]> (futures c))
         (set_request_table (delete msg_id (_request_table c)) c)).
Proof.
  intros Ht Hf He. unfold handle_rpc_response, bind, lookup_request.
  rewrite Ht, He. unfold modify, set_result. cbn [futures set_request_table].
  rewrite Hf. reflexivity.
Qed.

Lemma settled_core (c : RPCConnection) (msg_id : Z) (f : nat) (fu : Future)
  (err r : value) :
  _request_table c !! msg_id = Some f ->
  futures c !! f = Some fu ->
  truthy err = false ->
  futures (fst (handle_rpc_response msg_id err r c))
  = <[f := mkFuture (Result r) []]> (futures c)
  /\ _request_table (fst (handle_rpc_response msg_id err r c))
     = delete msg_id (_request_table c).
Proof.
  intros Ht Hf He. rewrite (handle_rpc_response_ok c msg_id f fu err r Ht Hf He).
  match goal with |- context [run_callbacks ?l ?g ?s] =>
    destruct (run_callbacks_core l g s) as [H1 H2] end.
  rewrite H1, H2. split; reflexivity.
Qed.

(** X3: a RESPONSE without error whose identifier is in the request table
    completes the future of that entry with exactly the result carried,
    removes the entry, and touches no other future and no other entry. *)
Theorem response_completes_the_future (c : RPCConnection) (msg_id : Z)
  (f : nat) (fu : Future) (err r : value) :
  _request_table c !! msg_id = Some f ->
  futures c !! f = Some fu ->
  truthy err = false ->
  let c' := fst (handle_rpc_response msg_id err r c) in
  state_of c' f = Result r
  /\ _request_table c' !! msg_id = None
  /\ (forall j, j <> msg_id -> _request_table c' !! j = _request_table c !! j)
  /\ (forall g, g <> f -> futures c' !! g = futures c !! g)
  /\ length (futures c') = length (futures c).
Proof.
  intros Ht Hf He. cbv zeta.
  destruct (settled_core c msg_id f fu err r Ht Hf He) as [H1 H2].
  unfold state_of. rewrite H1, H2.
  assert (Hlt : (f < length (futures c))%nat) by (eapply lookup_lt_Some; eassumption).
  repeat split.
  - now rewrite list_lookup_insert_eq.
  - apply lookup_delete_eq.
  - intros j Hj. now apply lookup_delete_ne.
  - intros g Hg. now apply list_lookup_insert_ne.
  - apply length_insert.
Qed.

(** X4: a future is completed by the first RESPONSE only: once a RESPONSE
    without error has been handled, a further RESPONSE for the same
    identifier (whatever it carries) is logged as 'response time out?' and
    changes nothing else; it does not raise, even when it carries an
    error. *)
Theorem second_response_is_discarded (c : RPCConnection) (msg_id : Z)
  (f : nat) (fu : Future) (err r err2 r2 : value) :
  _request_table c !! msg_id = Some f ->
  futures c !! f = Some fu ->
  truthy err = false ->
  let c' := fst (handle_rpc_response msg_id err r c) in
  handle_rpc_response msg_id err2 r2 c'
  = (set_log (log c' ++ [LogDebug "response time out?"]) c', inr tt).
Proof.
  intros Ht Hf He. cbv zeta. apply handle_rpc_response_absent.
  destruct (settled_core c msg_id f fu err r Ht Hf He) as [_ H2].
  rewrite H2. apply lookup_delete_eq.
Qed.

(** X5: a time-out that fires after the RESPONSE has been handled does
    nothing but log 'not exist, timeout?': it does not raise and leaves
    the completed future as it is. *)
Theorem timeout_after_response_is_idle (c : RPCConnection) (msg_id : Z)
  (f : nat) (fu : Future) (err r : value) :
  _request_table c !! msg_id = Some f ->
  futures c !! f = Some fu ->
  truthy err = false ->
  let c' := fst (handle_rpc_response msg_id err r c) in
  message_timeout_cb msg_id c'
  = (set_log (log c' ++ [LogDebug "not exist, timeout?"]) c', inr tt).
Proof.
  intros Ht Hf He. cbv zeta. apply message_timeout_cb_absent.
  destruct (settled_core c msg_id f fu err r Ht Hf He) as [_ H2].
  rewrite H2. apply lookup_delete_eq.
Qed.

End Settled.

(* ===================================================================== *)
(* Inbound handlers                                                       *)
(* ===================================================================== *)

Section Handlers.
Context {codec : Codec} {serv : Service} {host : Host}.

Lemma pack_response_decodes (i t : Z) (e r : value) (buf : bytes) :
  _pack_response i t e r = inr buf ->
  loads (dumps (VList [e; r])) = Some (VList [e; r]) ->
  decode_frame buf = Some (t, i, VList [e; r]).
Proof.
  unfold _pack_response, decode_frame. intros Hp Hrt.
  destruct (struct_pack _ t i) as [h |] eqn:Hh; [| discriminate].
  injection Hp as <-.
  pose proof (struct_pack_length _ _ _ _ Hh) as Hl.
  rewrite take_app_length', drop_app_length' by (symmetry; exact Hl).
  rewrite (struct_unpack_pack _ _ _ _ Hh), Z.eqb_refl, Hrt. reflexivity.
Qed.

Lemma respond_at_once (c : RPCConnection) (msg_id : Z) (r : svc_result)
  (e v : value) (buf : bytes) :
  answer_of r = Some (e, v) ->
  _pack_response msg_id RPC_RESPONSE e v = inr buf ->
  respond msg_id r c = (set_written (written c ++ [buf]) c, inr tt).
Proof.
  destruct r as [tb | w | st]; cbn [answer_of]; intros [= <- <-] Hp;
    unfold respond, bind, lift; rewrite Hp; reflexivity.
Qed.

(** X6: a REQUEST whose method returns a value or raises is answered at
    once with exactly one RESPONSE frame that carries the identifier of
    the request: (None, value) for a value, (traceback text, None) for an
    exception.  The handler itself does not raise, and apart from the
    frame written only the service has changed. *)
Theorem request_is_answered_with_its_id (c : RPCConnection) (msg_id : Z)
  (m : value) (args : list value) (s : svc) (r : svc_result) (e v : value)
  (buf : bytes) :
  service_call m (map AVal args) (service c) = (s, r) ->
  answer_of r = Some (e, v) ->
  _pack_response msg_id RPC_RESPONSE e v = inr buf ->
  loads (dumps (VList [e; v])) = Some (VList [e; v]) ->
  handle_rpc_request msg_id m args c
  = (set_written (written c ++ [buf]) (set_service s c), inr tt)
  /\ decode_frame buf = Some (RPC_RESPONSE, msg_id, VList [e; v]).
Proof.
  intros Hs Ha Hp Hrt. split.
  - unfold handle_rpc_request, bind, call_service. rewrite Hs.
    exact (respond_at_once (set_service s c) msg_id r e v buf Ha Hp).
  - exact (pack_response_decodes _ _ _ _ _ Hp Hrt).
Qed.

(** X7: a REGISTER frame hands the service the connection itself and then
    the second component of the payload as it is (not expanded into
    arguments), and is answered like a REQUEST: one RESPONSE frame with
    the identifier of the REGISTER frame. *)
Theorem register_is_answered_with_its_id (c : RPCConnection) (msg_id : Z)
  (m args : value) (s : svc) (r : svc_result) (e v : value) (buf : bytes) :
  service_call m [ASelf; AVal args] (service c) = (s, r) ->
  answer_of r = Some (e, v) ->
  _pack_response msg_id RPC_RESPONSE e v = inr buf ->
  loads (dumps (VList [e; v])) = Some (VList [e; v]) ->
  dispatch RPC_REGISTER msg_id (VList [m; args]) c
  = (set_written (written c ++ [buf]) (set_service s c), inr tt)
  /\ decode_frame buf = Some (RPC_RESPONSE, msg_id, VList [e; v]).
Proof.
  intros Hs Ha Hp Hrt. split.
  - unfold dispatch. cbn. unfold bind, lift. cbn.
    unfold handle_rpc_register, bind, call_service. rewrite Hs.
    exact (respond_at_once (set_service s c) msg_id r e v buf Ha Hp).
  - exact (pack_response_decodes _ _ _ _ _ Hp Hrt).
Qed.

(** X8: a NOTICE is never answered and never fails: whatever the method
    name and the arguments are (also when the arguments cannot be
    expanded, the method raises, or it returns a Future),
    handle_rpc_notice returns normally, writes no frame, and leaves the
    request table, the futures, the time-outs and the generator alone. *)
Theorem notice_handler_is_silent (c : RPCConnection) (msg_id : Z)
  (m args : value) :
  let r := handle_rpc_notice msg_id m args c in
  snd r = inr tt
  /\ written (fst r) = written c
  /\ _request_table (fst r) = _request_table c
  /\ futures (fst r) = futures c
  /\ timeouts (fst r) = timeouts c
  /\ _generator (fst r) = _generator c
  /\ _buff (fst r) = _buff c.
Proof.
  cbv zeta. unfold handle_rpc_notice.
  destruct (star args) as [e | l]; [repeat split |].
  unfold bind, call_service.
  destruct (service_call m (map AVal l) (service c)) as [s [tb | v | st]];
    repeat split.
Qed.

(** X9: when the method of a REQUEST returns a Future that is still
    pending, nothing is written yet: the handler keeps the future with
    result_callback bound to the identifier of the request.  When that
    future is completed with a value, exactly one RESPONSE frame (None,
    value) with that identifier is written. *)
Theorem pending_answer_is_written_on_completion (c : RPCConnection)
  (msg_id : Z) (m : value) (args : list value) (s : svc) (v : value)
  (buf : bytes) :
  service_call m (map AVal args) (service c) = (s, SvcFuture Pending) ->
  _pack_response msg_id RPC_RESPONSE VNone v = inr buf ->
  let c1 := fst (handle_rpc_request msg_id m args c) in
  let g := length (futures c) in
  snd (handle_rpc_request msg_id m args c) = inr tt
  /\ written c1 = written c
  /\ futures c1 = futures c ++ [mkFuture Pending [CbResult msg_id]]
  /\ snd (set_result g v c1) = inr tt
  /\ written (fst (set_result g v c1)) = written c ++ [buf]
  /\ state_of (fst (set_result g v c1)) g = Result v.
Proof.
  intros Hs Hp. cbv zeta.
  assert (E1 : handle_rpc_request msg_id m args c
               = (set_futures (futures c ++ [mkFuture Pending [CbResult msg_id]])
                    (set_service s c), inr tt)).
  { unfold handle_rpc_request, bind, call_service. rewrite Hs.
    unfold respond, bind, new_future, add_done_callback.
    cbn [fst snd futures set_futures set_service].
    rewrite snoc_lookup_last. cbn [futures set_futures].
    rewrite snoc_insert_last. reflexivity. }
  rewrite E1. cbn [fst snd].
  assert (E2 : set_result (length (futures c)) v
                 (set_futures (futures c ++ [mkFuture Pending [CbResult msg_id]])
                    (set_service s c))
               = (set_written (written c ++ [buf])
                    (set_futures (futures c ++ [mkFuture (Result v) []])
                       (set_service s c)), inr tt)).
  { unfold set_result. cbn [futures set_futures].
    rewrite snoc_lookup_last. cbn [fcallbacks run_callbacks run_callback].
    rewrite snoc_insert_last.
    unfold result_callback, bind, future_result, state_of, lift.
    cbn [futures set_futures]. rewrite snoc_lookup_last. cbn [fstate].
    rewrite Hp. reflexivity. }
  rewrite E2. cbn [fst snd]. unfold state_of. cbn [futures set_futures set_written].
  rewrite snoc_lookup_last. repeat split.
Qed.

(** X10: a frame whose type is none of REQUEST, RESPONSE, NOTICE and
    REGISTER is dropped without a trace: nothing is called, written,
    logged or raised. *)
Theorem unknown_type_is_ignored (c : RPCConnection) (t i : Z) (v : value) :
  t <> RPC_REQUEST -> t <> RPC_RESPONSE -> t <> RPC_NOTICE -> t <> RPC_REGISTER ->
  dispatch t i v c = (c, inr tt).
Proof.
  intros H0 H1 H2 H3. unfold dispatch.
  destruct (Z.eqb_spec t RPC_REQUEST); [contradiction |].
  destruct (Z.eqb_spec t RPC_RESPONSE); [contradiction |].
  destruct (Z.eqb_spec t RPC_NOTICE); [contradiction |].
  destruct (Z.eqb_spec t RPC_REGISTER); [contradiction |].
  reflexivity.
Qed.

(** X11: a frame of one of the four types whose payload decodes to
    something that is not a pair makes on_receive's unpacking raise
    (ValueError for a sequence of another length, TypeError for a value
    that is no sequence) before any handler runs: the connection is left
    untouched and no error RESPONSE is written. *)
Theorem malformed_envelope_raises (c : RPCConnection) (t i : Z) (v : value)
  (e : exn) :
  t = RPC_REQUEST \/ t = RPC_RESPONSE \/ t = RPC_NOTICE \/ t = RPC_REGISTER ->
  unpack2 v = inl e ->
  dispatch t i v c = (c, inl e).
Proof.
  intros Ht Hv. unfold dispatch, bind, lift. rewrite Hv.
  destruct Ht as [-> | [-> | [-> | ->]]]; reflexivity.
Qed.

End Handlers.

(* ===================================================================== *)
(* Whole reads                                                            *)
(* ===================================================================== *)

Section Reads.
Context {codec : Codec} {serv : Service} {host : Host}.

(** X12: a read that leaves the buffer with at most 9 bytes, or with a
    header whose length field asks for more payload than is buffered,
    only appends the bytes to the buffer: nothing is dispatched, logged or
    raised.  This covers the empty read. *)
Theorem incomplete_input_is_only_buffered (c : RPCConnection) (data : bytes) :
  len (_buff c ++ data) <= HEAD_LEN
  \/ (exists dl t i,
        struct_unpack (take 9 (_buff c ++ data)) = Some (dl, t, i)
        /\ len (_buff c ++ data) - HEAD_LEN < dl) ->
  on_receive c data = mkRecv (set_buff (_buff c ++ data) c) Drained [].
Proof.
  intros H. unfold on_receive. cbn [_buff set_buff receive_loop].
  destruct (Z.gtb_spec (len (_buff c ++ data)) HEAD_LEN) as [Hgt |]; [| reflexivity].
  destruct H as [Hle | (dl & t & i & Hh & Hlt)]; [lia |].
  unfold HEAD_LEN in *. rewrite slice_to_nonneg by lia.
  change (Z.to_nat 9) with 9%nat. rewrite Hh.
  destruct (Z.geb_spec (len (_buff c ++ data) - 9) dl); [lia | reflexivity].
Qed.

Lemma receive_loop_short (f : nat) (L : Z) (c : RPCConnection) :
  L <= HEAD_LEN -> receive_loop (S f) L c = mkRecv c Drained [].
Proof.
  intros HL. cbn [receive_loop].
  destruct (Z.gtb_spec L HEAD_LEN); [lia | reflexivity].
Qed.

(* The turn on a buffer that begins with a whole frame. *)
Lemma turn_on_frame (c : RPCConnection) (h payload rest : bytes) (t i : Z)
  (v : value) :
  _buff c = h ++ payload ++ rest ->
  struct_unpack h = Some (len payload, t, i) ->
  loads payload = Some v ->
  payload ++ rest <> [] ->
  receive_turn (len (_buff c)) c
  = match dispatch t i v (set_buff rest c) with
    | (c', inl e) => Stop (mkRecv c' (Raised e) [mkFrame (len payload) t i v])
    | (c', inr _) => Again (mkFrame (len payload) t i v) (len rest) c'
    end.
Proof.
  intros Hb Hh Hl Hne.
  assert (H9 : length h = 9%nat).
  { destruct h as [| ? [| ? [| ? [| ? [| ? [| ? [| ? [| ? [| ? [| ? ?]]]]]]]]]];
      try discriminate; reflexivity. }
  assert (Hpl : (0 < length (payload ++ rest))%nat)
    by (destruct (payload ++ rest); cbn; [congruence | lia]).
  rewrite length_app in Hpl.
  unfold receive_turn, HEAD_LEN, len in *. rewrite Hb.
  destruct (Z.gtb_spec (Z.of_nat (length (h ++ payload ++ rest))) 9) as [_ | Hn];
    [| rewrite !length_app in Hn; lia].
  rewrite slice_to_nonneg by lia. change (Z.to_nat 9) with 9%nat.
  rewrite take_app_length' by (symmetry; exact H9).
  rewrite Hh.
  destruct (Z.geb_spec (Z.of_nat (length (h ++ payload ++ rest)) - 9)
              (Z.of_nat (length payload))) as [_ | Hn];
    [| rewrite !length_app in Hn; lia].
  rewrite slice_nonneg, slice_from_nonneg by lia.
  replace (9 + Z.of_nat (length payload) - 9) with (Z.of_nat (length payload)) by lia.
  replace (Z.to_nat (9 + Z.of_nat (length payload)))
    with (length h + length payload)%nat by lia.
  change (Z.to_nat 9) with 9%nat. rewrite Nat2Z.id.
  rewrite drop_app_length' by (symmetry; exact H9).
  rewrite take_app_length.
  rewrite app_assoc, drop_app_length' by (rewrite length_app; reflexivity).
  rewrite Hl. cbv zeta. cbn [_buff set_buff].
  replace (set_buff rest (set_buff ((h ++ payload) ++ rest) c))
    with (set_buff rest c) by reflexivity.
  destruct (dispatch t i v (set_buff rest c)) as [c' [e | u]]; reflexivity.
Qed.

(* A single whole frame arriving on an empty buffer. *)
Lemma recv_one_frame (c : RPCConnection) (h payload : bytes) (t i : Z)
  (v : value) :
  _buff c = [] ->
  struct_unpack h = Some (len payload, t, i) ->
  loads payload = Some v ->
  payload <> [] ->
  on_receive c (h ++ payload)
  = match dispatch t i v c with
    | (c', inl e) => mkRecv c' (Raised e) [mkFrame (len payload) t i v]
    | (c', inr _) => mkRecv c' Drained [mkFrame (len payload) t i v]
    end.
Proof.
  intros Hb Hh Hl Hne. unfold on_receive. rewrite Hb, app_nil_l.
  cbn [_buff set_buff]. rewrite receive_loop_S.
  pose proof (turn_on_frame (set_buff (h ++ payload) c) h payload [] t i v) as T.
  cbn [_buff set_buff] in T. rewrite app_nil_r in T.
  rewrite (T eq_refl Hh Hl Hne). clear T.
  replace (set_buff [] (set_buff (h ++ payload) c)) with c
    by (rewrite set_buff_set_buff, <- Hb; symmetry; apply set_buff_same).
  destruct (dispatch t i v c) as [c' [e | u]]; [reflexivity |].
  destruct (length (h ++ payload)) eqn:E.
  { destruct h; [discriminate | discriminate E]. }
  rewrite receive_loop_short by (unfold len, HEAD_LEN; cbn; lia). reflexivity.
Qed.

Lemma frame_of_pack (n t i : Z) (payload : bytes) (buf : bytes) :
  match struct_pack (len payload) t i with
  | Some h => inr (h ++ payload)
  | None => inl StructError
  end = inr buf ->
  exists h, buf = h ++ payload /\ struct_unpack h = Some (len payload, t, i).
Proof.
  destruct (struct_pack (len payload) t i) as [h |] eqn:Hh; [| discriminate].
  intros [= <-]. exists h. split; [reflexivity | now apply struct_unpack_pack].
Qed.

Lemma recv_request (p : RPCConnection) (i : Z) (m : value) (a : list value)
  (buf : bytes) :
  _buff p = [] ->
  _pack_request i RPC_REQUEST m (VList a) = inr buf ->
  loads (dumps (VList [m; VList a])) = Some (VList [m; VList a]) ->
  dumps (VList [m; VList a]) <> [] ->
  on_receive p buf
  = match handle_rpc_request i m a p with
    | (p', inl e) =>
        mkRecv p' (Raised e)
          [mkFrame (len (dumps (VList [m; VList a]))) RPC_REQUEST i
             (VList [m; VList a])]
    | (p', inr _) =>
        mkRecv p' Drained
          [mkFrame (len (dumps (VList [m; VList a]))) RPC_REQUEST i
             (VList [m; VList a])]
    end.
Proof.
  intros Hb Hp Hl Hne. unfold _pack_request in Hp.
  destruct (frame_of_pack 0 _ _ _ _ Hp) as (h & -> & Hh).
  exact (recv_one_frame p h _ RPC_REQUEST i _ Hb Hh Hl Hne).
Qed.

Lemma recv_response (c : RPCConnection) (i : Z) (e r : value) (buf : bytes) :
  _buff c = [] ->
  _pack_response i RPC_RESPONSE e r = inr buf ->
  loads (dumps (VList [e; r])) = Some (VList [e; r]) ->
  dumps (VList [e; r]) <> [] ->
  on_receive c buf
  = match handle_rpc_response i e r c with
    | (c', inl x) =>
        mkRecv c' (Raised x)
          [mkFrame (len (dumps (VList [e; r]))) RPC_RESPONSE i (VList [e; r])]
    | (c', inr _) =>
        mkRecv c' Drained
          [mkFrame (len (dumps (VList [e; r]))) RPC_RESPONSE i (VList [e; r])]
    end.
Proof.
  intros Hb Hp Hl Hne. unfold _pack_response in Hp.
  destruct (frame_of_pack 0 _ _ _ _ Hp) as (h & -> & Hh).
  exact (recv_one_frame c h _ RPC_RESPONSE i _ Hb Hh Hl Hne).
Qed.

End Reads.

(* ===================================================================== *)
(* From one connection to its peer and back                               *)
(* ===================================================================== *)

Section RoundTrip.
Context {codec : Codec} {serv : Service} {host : Host}.

(** X13: the frame that call writes, read by a peer whose buffer is empty,
    is dispatched there as one REQUEST with the identifier the caller drew
    and the same method name and arguments: the peer ends up as
    handle_rpc_request leaves it, and the read ends normally unless that
    handler raises. *)
Theorem call_reaches_the_peer (c p : RPCConnection) (m : value)
  (a : list value) (cb : option callback) (buf : bytes) :
  _buff p = [] ->
  _pack_request (fst (next (_generator c))) RPC_REQUEST m (VList a) = inr buf ->
  loads (dumps (VList [m; VList a])) = Some (VList [m; VList a]) ->
  dumps (VList [m; VList a]) <> [] ->
  let i := fst (next (_generator c)) in
  written (fst (call m a cb c)) = written c ++ [buf]
  /\ dispatched (on_receive p buf)
     = [mkFrame (len (dumps (VList [m; VList a]))) RPC_REQUEST i
          (VList [m; VList a])]
  /\ conn_after (on_receive p buf) = fst (handle_rpc_request i m a p)
  /\ exit (on_receive p buf)
     = match snd (handle_rpc_request i m a p) with
       | inl e => Raised e
       | inr _ => Drained
       end.
Proof.
  intros Hb Hp Hl Hne. cbv zeta.
  rewrite (call_eq c m a cb buf Hp), (recv_request p _ m a buf Hb Hp Hl Hne).
  destruct (handle_rpc_request _ m a p) as [p' [e | u]]; repeat split.
Qed.

(** X14: a call and its answer, end to end.  The caller writes a REQUEST;
    the peer, whose method returns the value v, reads it and writes one
    RESPONSE; the caller reads that RESPONSE.  Both reads end normally,
    the future that call returned is completed with v, and its entry has
    left the request table. *)
Theorem call_round_trip (c p : RPCConnection) (m : value) (a : list value)
  (s : svc) (v : value) (buf buf2 : bytes) :
  _buff c = [] ->
  _buff p = [] ->
  _pack_request (fst (next (_generator c))) RPC_REQUEST m (VList a) = inr buf ->
  service_call m (map AVal a) (service p) = (s, SvcReturn v) ->
  _pack_response (fst (next (_generator c))) RPC_RESPONSE VNone v = inr buf2 ->
  loads (dumps (VList [m; VList a])) = Some (VList [m; VList a]) ->
  dumps (VList [m; VList a]) <> [] ->
  loads (dumps (VList [VNone; v])) = Some (VList [VNone; v]) ->
  dumps (VList [VNone; v]) <> [] ->
  let i := fst (next (_generator c)) in
  let f := length (futures c) in
  let c1 := fst (call m a None c) in
  snd (call m a None c) = inr f
  /\ written c1 = written c ++ [buf]
  /\ exit (on_receive p buf) = Drained
  /\ written (conn_after (on_receive p buf)) = written p ++ [buf2]
  /\ exit (on_receive c1 buf2) = Drained
  /\ state_of (conn_after (on_receive c1 buf2)) f = Result v
  /\ _request_table (conn_after (on_receive c1 buf2)) !! i = None.
Proof.
  intros Hbc Hbp Hp Hs Hp2 Hl Hne Hl2 Hne2. cbv zeta.
  rewrite (recv_request p _ m a buf Hbp Hp Hl Hne).
  assert (Hq : handle_rpc_request (fst (next (_generator c))) m a p
               = (set_written (written p ++ [buf2]) (set_service s p), inr tt)).
  { unfold handle_rpc_request, bind, call_service. rewrite Hs.
    exact (respond_at_once (set_service s p) _ (SvcReturn v) VNone v buf2 eq_refl Hp2). }
  rewrite Hq. rewrite (call_eq c m a None buf Hp). cbn [fst snd callbacks_of].
  match goal with |- context [on_receive ?c1 buf2] =>
    assert (Ht1 : _request_table c1 !! fst (next (_generator c))
                  = Some (length (futures c))) by (cbn; apply lookup_insert_eq);
    assert (Hf1 : futures c1 !! length (futures c) = Some (mkFuture Pending []))
      by (cbn; apply snoc_lookup_last);
    rewrite (recv_response c1 _ VNone v buf2 Hbc Hp2 Hl2 Hne2);
    rewrite (handle_rpc_response_ok c1 _ (length (futures c)) (mkFuture Pending [])
               VNone v Ht1 Hf1 eq_refl)
  end.
  cbn [fcallbacks run_callbacks ret _request_table futures set_futures
       set_request_table conn_after exit dispatched written].
  unfold state_of. rewrite snoc_insert_last.
  cbn [futures set_futures set_request_table _request_table written set_written].
  rewrite snoc_lookup_last. repeat split. apply lookup_delete_eq.
Qed.

(** X15: an exception in the remote method, end to end.  The peer answers
    the REQUEST with a RESPONSE that carries the traceback text; when the
    caller reads it, on_receive raises RPCServerError with that text, the
    future that call returned stays pending and its entry stays in the
    request table. *)
Theorem remote_error_round_trip (c p : RPCConnection) (m : value)
  (a : list value) (s : svc) (tb : string) (buf buf2 : bytes) :
  _buff c = [] ->
  _buff p = [] ->
  _pack_request (fst (next (_generator c))) RPC_REQUEST m (VList a) = inr buf ->
  service_call m (map AVal a) (service p) = (s, SvcRaise tb) ->
  truthy (VStr tb) = true ->
  _pack_response (fst (next (_generator c))) RPC_RESPONSE (VStr tb) VNone
    = inr buf2 ->
  loads (dumps (VList [m; VList a])) = Some (VList [m; VList a]) ->
  dumps (VList [m; VList a]) <> [] ->
  loads (dumps (VList [VStr tb; VNone])) = Some (VList [VStr tb; VNone]) ->
  dumps (VList [VStr tb; VNone]) <> [] ->
  let i := fst (next (_generator c)) in
  let f := length (futures c) in
  let c1 := fst (call m a None c) in
  exit (on_receive p buf) = Drained
  /\ written (conn_after (on_receive p buf)) = written p ++ [buf2]
  /\ exit (on_receive c1 buf2) = Raised (RPCServerError (VStr tb))
  /\ state_of (conn_after (on_receive c1 buf2)) f = Pending
  /\ _request_table (conn_after (on_receive c1 buf2)) !! i = Some f.
Proof.
  intros Hbc Hbp Hp Hs Htb Hp2 Hl Hne Hl2 Hne2. cbv zeta.
  rewrite (recv_request p _ m a buf Hbp Hp Hl Hne).
  assert (Hq : handle_rpc_request (fst (next (_generator c))) m a p
               = (set_written (written p ++ [buf2]) (set_service s p), inr tt)).
  { unfold handle_rpc_request, bind, call_service. rewrite Hs.
    exact (respond_at_once (set_service s p) _ (SvcRaise tb) (VStr tb) VNone buf2
             eq_refl Hp2). }
  rewrite Hq. rewrite (call_eq c m a None buf Hp). cbn [fst snd callbacks_of].
  match goal with |- context [on_receive ?c1 buf2] =>
    assert (Ht1 : _request_table c1 !! fst (next (_generator c))
                  = Some (length (futures c))) by (cbn; apply lookup_insert_eq);
    rewrite (recv_response c1 _ (VStr tb) VNone buf2 Hbc Hp2 Hl2 Hne2);
    rewrite (handle_rpc_response_error c1 _ (length (futures c)) (VStr tb) VNone
               Ht1 Htb)
  end.
  cbn [conn_after exit dispatched written _request_table]. unfold state_of.
  cbn [futures]. rewrite snoc_lookup_last.
  repeat split. apply lookup_insert_eq.
Qed.

Lemma receive_loop_conserves (f : nat) :
  forall c : RPCConnection,
    exit (receive_loop f (len (_buff c)) c) = Drained ->
    Forall (fun fr => 0 <= data_length fr)
           (dispatched (receive_loop f (len (_buff c)) c)) ->
    len (_buff c)
    = wire_size (dispatched (receive_loop f (len (_buff c)) c))
      + len (_buff (conn_after (receive_loop f (len (_buff c)) c))).
Proof.
  induction f as [| f IH]; intros c; [discriminate |].
  rewrite receive_loop_S.
  destruct (receive_turn (len (_buff c)) c) as [r0 | fr L' c'] eqn:Ht.
  - intros Hx _. rewrite (turn_stop_drained _ _ _ Ht Hx). cbn. lia.
  - unfold add_frame. cbn [exit dispatched conn_after wire_size fold_right].
    intros Hx Hnn. apply Forall_cons in Hnn as [Hfr Hnn].
    destruct (turn_again _ c fr L' c' eq_refl Ht Hfr)
      as (H9 & Hn & Hn9 & _ & _ & _ & Hb & ->).
    specialize (IH c' Hx Hnn). unfold wire_size in IH.
    rewrite <- Z.add_assoc, <- IH, Hb. unfold len, HEAD_LEN in *.
    rewrite length_drop. lia.
Qed.

(** X16: no byte is lost or read twice.  After a read that ends with the
    loop left and dispatched no frame with a negative length field, the
    bytes that were in the buffer plus the bytes read are as many as the
    frames dispatched took on the wire (9 bytes of header and the length
    field, each) plus the bytes still buffered. *)
Theorem no_byte_is_lost (c : RPCConnection) (data : bytes) :
  exit (on_receive c data) = Drained ->
  Forall (fun fr => 0 <= data_length fr) (dispatched (on_receive c data)) ->
  len (_buff c) + len data
  = wire_size (dispatched (on_receive c data))
    + len (_buff (conn_after (on_receive c data))).
Proof.
  unfold on_receive. cbn [_buff set_buff]. intros Hx Hnn.
  pose proof (receive_loop_conserves _ (set_buff (_buff c ++ data) c) Hx Hnn) as E.
  cbn [_buff set_buff] in E. rewrite <- E. unfold len. rewrite length_app. lia.
Qed.

End RoundTrip.

(* ===================================================================== *)
(* The request table holds pending futures only                           *)
(* ===================================================================== *)

Section Pending.
Context {codec : Codec} {serv : Service} {host : Host}.

Lemma entries_pending_core (c c' : RPCConnection) :
  futures c' = futures c -> _request_table c' = _request_table c ->
  entries_pending c -> entries_pending c'.
Proof. unfold entries_pending. intros -> ->. auto. Qed.

Lemma keeps_core {A} (m : M A) :
  (forall c, futures (fst (m c)) = futures c
             /\ _request_table (fst (m c)) = _request_table c) ->
  keeps m.
Proof.
  intros H c Hc. destruct (H c) as [H1 H2].
  exact (entries_pending_core c _ H1 H2 Hc).
Qed.

Lemma keeps_ret {A} (a : A) : keeps (ret a).
Proof. intros c Hc. exact Hc. Qed.

Lemma keeps_raise {A} (e : exn) : keeps (raise (A := A) e).
Proof. intros c Hc. exact Hc. Qed.

Lemma keeps_lift {A} (r : exn + A) : keeps (lift r).
Proof. intros c Hc. exact Hc. Qed.

Lemma keeps_bind {A B} (m : M A) (k : A -> M B) :
  keeps m -> (forall a, keeps (k a)) -> keeps (bind m k).
Proof.
  intros Hm Hk c Hc. unfold bind. specialize (Hm c Hc).
  destruct (m c) as [c' [e | a]]; cbn [fst] in *; [exact Hm | now apply Hk].
Qed.

Lemma keeps_write (buf : bytes) : keeps (write buf).
Proof. apply keeps_core. intros c. split; reflexivity. Qed.

Lemma keeps_logger (e : log_entry) : keeps (logger e).
Proof. apply keeps_core. intros c. split; reflexivity. Qed.

Lemma keeps_call_service (m : value) (a : list arg) : keeps (call_service m a).
Proof.
  apply keeps_core. intros c. unfold call_service.
  destruct (service_call m a (service c)); split; reflexivity.
Qed.

Lemma keeps_lookup_request (i : Z) : keeps (lookup_request i).
Proof. intros c Hc. exact Hc. Qed.

Lemma keeps_run_callback (cb : callback) (f : nat) : keeps (run_callback cb f).
Proof. apply keeps_core. intros c. apply run_callback_core. Qed.

Lemma keeps_new_future (st : fut_state) : keeps (new_future st).
Proof.
  intros c Hc i f Hi. cbn in Hi |- *. destruct (Hc i f Hi) as [[cbs Hf] Hinj].
  split; [| exact Hinj]. exists cbs. now apply lookup_app_l_Some.
Qed.

Lemma keeps_add_done_callback (g : nat) (cb : callback) :
  keeps (add_done_callback g cb).
Proof.
  intros c Hc. unfold add_done_callback.
  destruct (futures c !! g) as [[[] cbs] |] eqn:Hg;
    try (apply keeps_run_callback; exact Hc).
  intros i f Hi. cbn in Hi |- *. destruct (Hc i f Hi) as [[cbs' Hf] Hinj].
  split; [| exact Hinj].
  destruct (decide (f = g)) as [-> | Hne].
  - exists (cbs ++ [cb]). apply list_lookup_insert_eq.
    eapply lookup_lt_Some; eassumption.
  - exists cbs'. rewrite list_lookup_insert_ne by congruence. exact Hf.
Qed.

Lemma keeps_handle_rpc_response (i : Z) (e r : value) :
  keeps (handle_rpc_response i e r).
Proof.
  intros c Hc.
  destruct (_request_table c !! i) as [f |] eqn:Hi.
  - destruct (truthy e) eqn:He.
    + now rewrite (handle_rpc_response_error c i f e r Hi He).
    + destruct (Hc i f Hi) as [[cbs Hf] Hinj].
      destruct (settled_core c i f _ e r Hi Hf He) as [H1 H2].
      intros j f' Hj. rewrite H1, H2 in *.
      destruct (decide (j = i)) as [-> | Hji]; [now rewrite lookup_delete_eq in Hj |].
      rewrite lookup_delete_ne in Hj by congruence.
      destruct (Hc j f' Hj) as [[cbs' Hf'] Hinj'].
      assert (Hne : f <> f') by (intros <-; apply Hji; now apply Hinj).
      split.
      * exists cbs'. now rewrite list_lookup_insert_ne.
      * intros j' Hj'. destruct (decide (j' = i)) as [-> | Hj'i];
          [now rewrite lookup_delete_eq in Hj' |].
        rewrite lookup_delete_ne in Hj' by congruence. now apply Hinj'.
  - rewrite (handle_rpc_response_absent c i e r Hi).
    eapply entries_pending_core; [| | exact Hc]; reflexivity.
Qed.

Create HintDb keeps.
#[local] Hint Resolve keeps_ret keeps_raise keeps_lift keeps_write keeps_logger
  keeps_call_service keeps_lookup_request keeps_run_callback keeps_new_future
  keeps_add_done_callback keeps_handle_rpc_response : keeps.

Ltac keeps_step :=
  repeat first
    [ progress auto with keeps
    | apply keeps_bind; [| intros ?]
    | match goal with
      | |- keeps (match ?x with _ => _ end) => destruct x
      | |- keeps (if ?b then _ else _) => destruct b
      end ].

Lemma keeps_dispatch (t i : Z) (v : value) : keeps (dispatch t i v).
Proof.
  unfold dispatch, handle_rpc_request, handle_rpc_notice, handle_rpc_register,
    respond.
  keeps_step.
Qed.

Lemma keeps_message_timeout_cb (i : Z) : keeps (message_timeout_cb i).
Proof.
  intros c Hc. destruct (_request_table c !! i) as [f |] eqn:Hi.
  - rewrite (message_timeout_cb_present c i f Hi). cbn [fst].
    intros j f' Hj. cbn in Hj |- *.
    destruct (decide (j = i)) as [-> | Hji]; [now rewrite lookup_delete_eq in Hj |].
    rewrite lookup_delete_ne in Hj by congruence.
    destruct (Hc j f' Hj) as [Hf' Hinj']. split; [exact Hf' |].
    intros j' Hj'. destruct (decide (j' = i)) as [-> | Hj'i];
      [now rewrite lookup_delete_eq in Hj' |].
    rewrite lookup_delete_ne in Hj' by congruence. now apply Hinj'.
  - rewrite (message_timeout_cb_absent c i Hi).
    eapply entries_pending_core; [| | exact Hc]; reflexivity.
Qed.

(* A fresh pending future entered under identifier i. *)
Lemma entries_pending_insert (c c' : RPCConnection) (i : Z) (cbs : list callback) :
  futures c' = futures c ++ [mkFuture Pending cbs] ->
  _request_table c' = <[i := length (futures c)]> (_request_table c) ->
  entries_pending c -> entries_pending c'.
Proof.
  intros Hf Ht Hc j f Hj. rewrite Hf, Ht in *.
  assert (Hold : forall j' f', _request_table c !! j' = Some f' ->
                               (f' < length (futures c))%nat).
  { intros j' f' H'. destruct (Hc j' f' H') as [[cbs' H''] _].
    eapply lookup_lt_Some; eassumption. }
  destruct (decide (j = i)) as [-> | Hji].
  - rewrite lookup_insert_eq in Hj. injection Hj as <-. split.
    + exists cbs. apply snoc_lookup_last.
    + intros j' Hj'. destruct (decide (j' = i)) as [-> | Hn]; [reflexivity |].
      rewrite lookup_insert_ne in Hj' by congruence.
      specialize (Hold j' _ Hj'). lia.
  - rewrite lookup_insert_ne in Hj by congruence.
    destruct (Hc j f Hj) as [[cbs' Hf'] Hinj]. split.
    + exists cbs'. now apply lookup_app_l_Some.
    + intros j' Hj'. destruct (decide (j' = i)) as [-> | Hn].
      * rewrite lookup_insert_eq in Hj'. injection Hj' as <-.
        specialize (Hold j _ Hj). lia.
      * rewrite lookup_insert_ne in Hj' by congruence. now apply Hinj.
Qed.

Lemma keeps_call (m : value) (a : list value) (cb : option callback) :
  keeps (call m a cb).
Proof.
  intros c Hc.
  destruct (_pack_request (fst (next (_generator c))) RPC_REQUEST m (VList a))
    as [e | buf] eqn:Hp.
  - rewrite (call_raises c m a cb e Hp).
    eapply entries_pending_core; [| | exact Hc]; reflexivity.
  - rewrite (call_eq c m a cb buf Hp).
    eapply entries_pending_insert; [| | exact Hc]; reflexivity.
Qed.

Lemma keeps_register (name : value) (cb : option callback) :
  keeps (register name cb).
Proof.
  intros c Hc.
  destruct (_pack_request (fst (next (_generator c))) RPC_REGISTER
              (VStr "register") name) as [e | buf] eqn:Hp.
  - rewrite (register_raises c name cb e Hp).
    eapply entries_pending_core; [| | exact Hc]; reflexivity.
  - rewrite (register_eq c name cb buf Hp).
    eapply entries_pending_insert; [| | exact Hc]; reflexivity.
Qed.

Lemma keeps_notice (m : value) (a : list value) : keeps (notice m a).
Proof.
  apply keeps_core. intros c. rewrite notice_eq.
  destruct (_pack_request _ RPC_NOTICE m (VList a)); split; reflexivity.
Qed.

Lemma receive_loop_keeps (f : nat) :
  forall (L : Z) (c : RPCConnection),
    entries_pending c -> entries_pending (conn_after (receive_loop f L c)).
Proof.
  induction f as [| f IH]; intros L c Hc; [exact Hc |].
  cbn [receive_loop].
  destruct (L >? HEAD_LEN); [| exact Hc].
  destruct (struct_unpack _) as [[[dl t] i] |]; [| exact Hc].
  destruct (L - HEAD_LEN >=? dl); [| exact Hc].
  cbv zeta. destruct (loads _) as [v |].
  - match goal with |- context [dispatch t i v ?s] =>
      pose proof (keeps_dispatch t i v s) as Hk;
      destruct (dispatch t i v s) as [c' [e | u]] end;
      cbn [fst conn_after add_frame] in *.
    + apply Hk. eapply entries_pending_core; [| | exact Hc]; reflexivity.
    + apply IH, Hk. eapply entries_pending_core; [| | exact Hc]; reflexivity.
  - cbn [conn_after]. eapply entries_pending_core; [| | exact Hc]; reflexivity.
Qed.

(** X17: every entry of the request table names a future that is still
    pending, and no two entries name the same future.  A fresh connection
    starts that way, and on_receive (whatever bytes arrive, however the
    read ends), call, register, notice and message_timeout_cb keep it so:
    a future is completed only together with the removal of its entry. *)
Theorem entries_stay_pending (c : RPCConnection) :
  entries_pending c ->
  (forall data, entries_pending (conn_after (on_receive c data)))
  /\ (forall m a cb, entries_pending (fst (call m a cb c)))
  /\ (forall name cb, entries_pending (fst (register name cb c)))
  /\ (forall m a, entries_pending (fst (notice m a c)))
  /\ (forall i, entries_pending (fst (message_timeout_cb i c)))
  /\ (forall s t, entries_pending (RPCConnection_init s t)).
Proof.
  intros Hc. split; [| split; [| split; [| split; [| split]]]].
  - intros data. unfold on_receive. apply receive_loop_keeps.
    eapply entries_pending_core; [| | exact Hc]; reflexivity.
  - intros m a cb. exact (keeps_call m a cb c Hc).
  - intros name cb. exact (keeps_register name cb c Hc).
  - intros m a. exact (keeps_notice m a c Hc).
  - intros j. exact (keeps_message_timeout_cb j c Hc).
  - intros s t i f H. cbn in H. rewrite lookup_empty in H. discriminate.
Qed.

End Pending.

(* ===================================================================== *)
(* The duplex registry: disconnects and routed calls                      *)
(* ===================================================================== *)

Section Closing.
Context {C : Type} `{EqDecision C}.

(* What the loop of on_close finds, whatever the order of the items. *)
Lemma find_node_cases (items : list (string * C)) (conn : C)
  (s : @DuplexRPCServer C) :
  items ≡ₚ map_to_list (rpc_clients s) ->
  (find_node conn items = None
   /\ forall n, rpc_clients s !! n <> Some conn)
  \/ (exists n, find_node conn items = Some n
                /\ rpc_clients s !! n = Some conn).
Proof.
  intros Hp. unfold find_node.
  destruct (List.find _ items) as [[n c] |] eqn:Hf.
  - right. exists n. split; [reflexivity |].
    apply find_some in Hf as [Hin Hb]. cbn in Hb.
    apply bool_decide_eq_true in Hb. subst c.
    apply list_elem_of_In in Hin. rewrite Hp in Hin.
    now apply elem_of_map_to_list in Hin.
  - left. split; [reflexivity |]. intros n Hn.
    apply elem_of_map_to_list in Hn. rewrite <- Hp in Hn.
    apply list_elem_of_In in Hn.
    pose proof (find_none _ _ Hf _ Hn) as Hb. cbn in Hb.
    apply bool_decide_eq_false in Hb. congruence.
Qed.

(** X18: on_close(conn) removes at most one entry of the registry, and
    only an entry that held conn under a non-empty name; every other name
    keeps its connection.  When no name holds conn, nothing changes.  This
    holds for every order in which the dict may enumerate its items. *)
Theorem on_close_removes_an_entry_of_conn (items : list (string * C))
  (conn : C) (s : @DuplexRPCServer C) :
  items ≡ₚ map_to_list (rpc_clients s) ->
  let s' := on_close_in items conn s in
  (rpc_clients s' = rpc_clients s
   \/ exists n, n <> EmptyString /\ rpc_clients s !! n = Some conn
                /\ rpc_clients s' = delete n (rpc_clients s))
  /\ ((forall n, rpc_clients s !! n <> Some conn) -> s' = s).
Proof.
  intros Hp. cbv zeta. unfold on_close_in.
  destruct (find_node_cases items conn s Hp) as [[Hf Hno] | (n & Hf & Hn)];
    rewrite Hf.
  - split; [left; reflexivity | reflexivity].
  - split.
    + destruct (String.eqb_spec n EmptyString) as [-> | Hne]; cbn [negb].
      * left. reflexivity.
      * right. exists n. repeat split; assumption.
    + intros Hno. now destruct (Hno n).
Qed.

(** X19: a connection that is registered under the empty name is never
    removed by on_close: the entry found is skipped because the empty
    string is false, so the registry keeps a closed connection. *)
Theorem empty_name_survives_close (items : list (string * C)) (conn : C)
  (s : @DuplexRPCServer C) :
  items ≡ₚ map_to_list (rpc_clients s) ->
  rpc_clients s !! EmptyString = Some conn ->
  (forall n, rpc_clients s !! n = Some conn -> n = EmptyString) ->
  on_close_in items conn s = s.
Proof.
  intros Hp He Hu. unfold on_close_in.
  destruct (find_node_cases items conn s Hp) as [[Hf Hno] | (n & Hf & Hn)];
    rewrite Hf; [reflexivity |].
  rewrite (Hu n Hn). reflexivity.
Qed.

(** X20: registering and closing undo each other.  When a connection that
    holds no name registers under a free, non-empty name and later closes,
    the name-to-connection mapping is again what it was before the
    registration. *)
Theorem register_then_close_restores (conn : C) (name : string)
  (s : @DuplexRPCServer C) :
  name <> EmptyString ->
  rpc_clients s !! name = None ->
  (forall n, rpc_clients s !! n <> Some conn) ->
  snd (_handle_rpc_register conn name s) = true
  /\ rpc_clients (on_close conn (fst (_handle_rpc_register conn name s)))
     = rpc_clients s.
Proof.
  intros Hne Hfree Hno. unfold _handle_rpc_register. rewrite Hfree.
  cbn [fst snd]. split; [reflexivity |].
  unfold on_close, on_close_in, server_on_registered. cbn [rpc_clients].
  set (s1 := mkServer (<[name := conn]> (rpc_clients s))
               (server_log s ++ [LogDebug (name ++ " registered ")])).
  destruct (find_node_cases (map_to_list (rpc_clients s1)) conn s1 (reflexivity _))
    as [[Hf Hnone] | (n & Hf & Hn)]; cbn [rpc_clients s1] in *; rewrite Hf.
  - exfalso. apply (Hnone name). apply lookup_insert_eq.
  - assert (n = name) as ->.
    { destruct (decide (n = name)) as [-> | Hd]; [reflexivity |].
      rewrite lookup_insert_ne in Hn by congruence. now destruct (Hno n). }
    destruct (String.eqb_spec name EmptyString) as [-> | _]; [congruence |].
    cbn [negb rpc_clients]. rewrite delete_insert_eq.
    now apply delete_id.
Qed.

End Closing.

Section Routing.
Context {codec : Codec} {serv : Service} {host : Host}.

(** X21: call_node reaches the connection that registered the name and no
    other.  After connection k has registered under a free name, call_node
    for that name issues call on connection k: it returns the future of
    that call, the REQUEST frame is written on connection k, every other
    connection object is left as it was, and the registry is unchanged. *)
Theorem registered_node_is_called (d : Duplex) (k : nat) (name : string)
  (node : RPCConnection) (m : value) (a : list value) (buf : bytes) :
  rpc_clients (registry d) !! name = None ->
  conns d !! k = Some node ->
  _pack_request (fst (next (_generator node))) RPC_REQUEST m (VList a) = inr buf ->
  let d1 := fst (duplex_register k name d) in
  let d2 := fst (call_node name m a d1) in
  snd (duplex_register k name d) = true
  /\ snd (call_node name m a d1) = NodeFuture k (length (futures node))
  /\ conns d2 !! k = Some (fst (call m a None node))
  /\ written (fst (call m a None node)) = written node ++ [buf]
  /\ (forall j, j <> k -> conns d2 !! j = conns d !! j)
  /\ registry d2 = registry d1.
Proof.
  intros Hfree Hk Hp. cbv zeta.
  unfold duplex_register, _handle_rpc_register. rewrite Hfree. cbn [fst snd].
  unfold call_node, server_on_registered. cbn [registry rpc_clients conns].
  rewrite lookup_insert_eq, Hk.
  rewrite (call_eq node m a None buf Hp). cbn [fst snd registry conns written].
  assert (Hlt : (k < length (conns d))%nat) by (eapply lookup_lt_Some; eassumption).
  repeat split.
  - now apply list_lookup_insert_eq.
  - intros j Hj. now apply list_lookup_insert_ne.
Qed.

(** X22: a node that has closed can no longer be called.  After the only
    name of connection k (a non-empty one) has been removed by on_close,
    call_node for that name ends with the 'node not exist' exception and
    changes nothing: no connection is written to. *)
Theorem closed_node_is_not_called (d : Duplex) (k : nat) (name : string)
  (m : value) (a : list value) :
  name <> EmptyString ->
  rpc_clients (registry d) !! name = Some k ->
  (forall n, rpc_clients (registry d) !! n = Some k -> n = name) ->
  call_node name m a (duplex_close k d) = (duplex_close k d, NodeNotExist name).
Proof.
  intros Hne Hn Hu. unfold call_node, duplex_close, on_close, on_close_in.
  cbn [registry conns].
  destruct (find_node_cases (map_to_list (rpc_clients (registry d))) k (registry d)
              (reflexivity _)) as [[Hf Hnone] | (n & Hf & Hn')]; rewrite Hf.
  - now destruct (Hnone name).
  - rewrite (Hu n Hn') in *.
    destruct (String.eqb_spec name EmptyString) as [-> | _]; [congruence |].
    cbn [negb rpc_clients]. rewrite lookup_delete_eq. reflexivity.
Qed.

(** X23: RPCClient.__init__ registers only when a name is given.  With the
    empty name the connection stays fresh: nothing is written and no
    identifier is drawn.  With a name, exactly one REGISTER frame is
    written, with identifier 0, and its future waits in the request table
    with _register_callback as its only callback. *)
Theorem client_registers_only_with_a_name (name : string) (s : svc) (t : Z) :
  if String.eqb name EmptyString
  then RPCClient_init name s t = inr (mkClient name (RPCConnection_init s t))
  else match _pack_request 0 RPC_REGISTER (VStr "register") (VStr name) with
       | inr buf =>
           exists cl, RPCClient_init name s t = inr cl
             /\ rpc_name cl = name
             /\ written (_conn cl) = [buf]
             /\ _request_table (_conn cl) = {[ 0 := 0%nat ]}
             /\ futures (_conn cl) = [mkFuture Pending [CbRegister name]]
       | inl e => RPCClient_init name s t = inl e
       end.
Proof.
  unfold RPCClient_init.
  destruct (String.eqb name EmptyString); cbn [negb]; [reflexivity |].
  destruct (_pack_request 0 RPC_REGISTER (VStr "register") (VStr name))
    as [e | buf] eqn:Hp.
  - rewrite (register_raises (RPCConnection_init s t) (VStr name) _ e Hp).
    reflexivity.
  - rewrite (register_eq (RPCConnection_init s t) (VStr name) _ buf Hp).
    eexists. repeat split.
Qed.

(** X24: register is call with another frame.  When both frames can be
    packed, register(name) and call(method, args) with the same callback
    leave the connection in the same state but for the frame written:
    same identifier drawn, same future, same table entry, same
    time-out. *)
Theorem register_is_call_with_another_frame (c : RPCConnection)
  (name m : value) (a : list value) (cb : option callback) (b1 b2 : bytes) :
  _pack_request (fst (next (_generator c))) RPC_REGISTER (VStr "register") name
    = inr b1 ->
  _pack_request (fst (next (_generator c))) RPC_REQUEST m (VList a) = inr b2 ->
  snd (register name cb c) = snd (call m a cb c)
  /\ set_written [] (fst (register name cb c))
     = set_written [] (fst (call m a cb c))
  /\ written (fst (register name cb c)) = written c ++ [b1]
  /\ written (fst (call m a cb c)) = written c ++ [b2].
Proof.
  intros H1 H2. rewrite (register_eq c name cb b1 H1), (call_eq c m a cb b2 H2).
  repeat split.
Qed.

End Routing.

(* ===================================================================== *)
(* Several frames in one read                                             *)
(* ===================================================================== *)

Section Sticky.
Context {codec : Codec} {serv : Service} {host : Host}.

(** X25: frames that arrive stuck together are worked off one after the
    other.  With a codec that refuses the empty payload, a read on an
    empty buffer that begins with a whole frame whose payload decodes and
    whose handler returns dispatches that frame and then goes on exactly
    as a read of the remaining bytes would on the connection the handler
    left. *)
Theorem frame_then_rest (c c' : RPCConnection) (h payload rest : bytes)
  (t i : Z) (v : value) :
  loads [] = None ->
  _buff c = [] ->
  struct_unpack h = Some (len payload, t, i) ->
  loads payload = Some v ->
  dispatch t i v c = (c', inr tt) ->
  on_receive c (h ++ payload ++ rest)
  = add_frame (mkFrame (len payload) t i v) (on_receive c' rest).
Proof.
  intros Hempty Hb Hh Hl Hd.
  assert (Hne : payload ++ rest <> []).
  { destruct payload; [congruence | discriminate]. }
  pose proof (blind_dispatch t i v rest c) as Hbl. rewrite Hd in Hbl.
  pose proof (blind_keeps_buff (dispatch t i v) c (blind_dispatch t i v)) as Hk.
  rewrite Hd, Hb in Hk. cbn [fst snd] in *.
  unfold on_receive. rewrite Hb, Hk, !app_nil_l. cbn [_buff set_buff].
  rewrite receive_loop_S.
  pose proof (turn_on_frame (set_buff (h ++ payload ++ rest) c) h payload rest
                t i v eq_refl Hh Hl Hne) as T.
  cbn [_buff set_buff] in T. rewrite T. clear T.
  rewrite set_buff_set_buff, Hbl. f_equal.
  pose proof (receive_loop_ends (S (length rest)) Hempty (set_buff rest c')) as He.
  cbn [_buff set_buff] in He. specialize (He (Nat.lt_succ_diag_r _)).
  apply (receive_loop_more_fuel _ _ _ _ He).
  rewrite !length_app.
  assert (length h = 9%nat).
  { destruct h as [| ? [| ? [| ? [| ? [| ? [| ? [| ? [| ? [| ? [| ? ?]]]]]]]]]];
      try discriminate; reflexivity. }
  lia.
Qed.

End Sticky.

(* ===================================================================== *)
(* The further properties on concrete inputs                              *)
(* ===================================================================== *)

Section MoreExamples.
#[local] Existing Instance msgpack.
#[local] Existing Instance demo_service.
#[local] Existing Instance quiet_host.

Lemma response_completes_the_future_witness :
  let c' := fst (handle_rpc_response (serv := demo_service) 0 VNone (VInt 42)
                   (calling 0)) in
  state_of c' 0 = Result (VInt 42)
  /\ _request_table c' !! 0 = None
  /\ (forall j, j <> 0 -> _request_table c' !! j = _request_table (calling 0) !! j)
  /\ (forall g, g <> 0%nat -> futures c' !! g = futures (calling 0) !! g)
  /\ length (futures c') = length (futures (calling 0)).
Proof.
  apply (response_completes_the_future (calling 0) 0 0%nat (mkFuture Pending [])
           VNone (VInt 42)); vm_compute; reflexivity.
Defined.

Lemma second_response_is_discarded_witness :
  let c' := fst (handle_rpc_response (serv := demo_service) 0 VNone (VInt 42)
                   (calling 0)) in
  handle_rpc_response 0 (VStr "boom") VNone c'
  = (set_log (log c' ++ [LogDebug "response time out?"]) c', inr tt).
Proof.
  apply (second_response_is_discarded (calling 0) 0 0%nat (mkFuture Pending [])
           VNone (VInt 42) (VStr "boom") VNone); vm_compute; reflexivity.
Defined.

Lemma timeout_after_response_is_idle_witness :
  let c' := fst (handle_rpc_response (serv := demo_service) 0 VNone (VInt 42)
                   (calling 5)) in
  message_timeout_cb 0 c'
  = (set_log (log c' ++ [LogDebug "not exist, timeout?"]) c', inr tt).
Proof.
  apply (timeout_after_response_is_idle (calling 5) 0 0%nat (mkFuture Pending [])
           VNone (VInt 42)); vm_compute; reflexivity.
Defined.

Lemma request_is_answered_with_its_id_witness :
  handle_rpc_request 0 (VStr "echo") [VInt 42] (demo_conn 0)
  = (set_written (written (demo_conn 0) ++ [response_42])
       (set_service [] (demo_conn 0)), inr tt)
  /\ decode_frame response_42 = Some (RPC_RESPONSE, 0, VList [VNone; VInt 42]).
Proof.
  apply (request_is_answered_with_its_id (demo_conn 0) 0 (VStr "echo") [VInt 42]
           [] (SvcReturn (VInt 42)) VNone (VInt 42) response_42);
    vm_compute; reflexivity.
Defined.

Lemma register_is_answered_with_its_id_witness :
  dispatch RPC_REGISTER 0 (VList [VStr "nope"; VStr "nodeA"]) (demo_conn 0)
  = (set_written (written (demo_conn 0) ++ [response_no_such_method])
       (set_service [] (demo_conn 0)), inr tt)
  /\ decode_frame response_no_such_method
     = Some (RPC_RESPONSE, 0, VList [VStr "no such method"; VNone]).
Proof.
  apply (register_is_answered_with_its_id (demo_conn 0) 0 (VStr "nope")
           (VStr "nodeA") [] (SvcRaise "no such method")
           (VStr "no such method") VNone response_no_such_method);
    vm_compute; reflexivity.
Defined.

Lemma pending_answer_is_written_on_completion_witness :
  let c1 := fst (handle_rpc_request 0 (VStr "later") [] async_conn) in
  snd (handle_rpc_request 0 (VStr "later") [] async_conn) = inr tt
  /\ written c1 = written async_conn
  /\ futures c1 = futures async_conn ++ [mkFuture Pending [CbResult 0]]
  /\ snd (set_result 0 (VInt 42) c1) = inr tt
  /\ written (fst (set_result 0 (VInt 42) c1)) = written async_conn ++ [response_42]
  /\ state_of (fst (set_result 0 (VInt 42) c1)) 0 = Result (VInt 42).
Proof.
  apply (pending_answer_is_written_on_completion async_conn 0 (VStr "later") []
           tt (VInt 42) response_42); vm_compute; reflexivity.
Defined.

Lemma unknown_type_is_ignored_witness :
  dispatch 7 0 (VList [VStr "echo"; VList []]) (demo_conn 0) = (demo_conn 0, inr tt).
Proof.
  apply (unknown_type_is_ignored (demo_conn 0) 7 0); vm_compute; discriminate.
Defined.

Lemma malformed_envelope_raises_witness :
  dispatch RPC_REQUEST 0 (VInt 5) (demo_conn 0) = (demo_conn 0, inl TypeError).
Proof.
  apply (malformed_envelope_raises (demo_conn 0) RPC_REQUEST 0 (VInt 5) TypeError).
  - left. reflexivity.
  - reflexivity.
Defined.

Lemma incomplete_input_is_only_buffered_witness :
  on_receive (demo_conn 0) (take 12 request_echo42)
  = mkRecv (set_buff (_buff (demo_conn 0) ++ take 12 request_echo42) (demo_conn 0))
      Drained [].
Proof.
  apply (incomplete_input_is_only_buffered (demo_conn 0) (take 12 request_echo42)).
  right. exists 8, 0, 0. split; [vm_compute; reflexivity | vm_compute; reflexivity].
Defined.

Lemma call_reaches_the_peer_witness :
  written (fst (call (VStr "echo") [VInt 42] None (demo_conn 0)))
  = written (demo_conn 0) ++ [request_echo42]
  /\ dispatched (on_receive (demo_conn 0) request_echo42)
     = [mkFrame (len (dumps (VList [VStr "echo"; VList [VInt 42]]))) RPC_REQUEST 0
          (VList [VStr "echo"; VList [VInt 42]])]
  /\ conn_after (on_receive (demo_conn 0) request_echo42)
     = fst (handle_rpc_request 0 (VStr "echo") [VInt 42] (demo_conn 0))
  /\ exit (on_receive (demo_conn 0) request_echo42)
     = match snd (handle_rpc_request 0 (VStr "echo") [VInt 42] (demo_conn 0)) with
       | inl e => Raised e
       | inr _ => Drained
       end.
Proof.
  apply (call_reaches_the_peer (demo_conn 0) (demo_conn 0) (VStr "echo") [VInt 42]
           None request_echo42); vm_compute; (reflexivity || discriminate).
Defined.

Lemma call_round_trip_witness :
  let c1 := fst (call (VStr "echo") [VInt 42] None (demo_conn 0)) in
  snd (call (VStr "echo") [VInt 42] None (demo_conn 0)) = inr 0%nat
  /\ written c1 = written (demo_conn 0) ++ [request_echo42]
  /\ exit (on_receive (demo_conn 0) request_echo42) = Drained
  /\ written (conn_after (on_receive (demo_conn 0) request_echo42))
     = written (demo_conn 0) ++ [response_42]
  /\ exit (on_receive c1 response_42) = Drained
  /\ state_of (conn_after (on_receive c1 response_42)) 0 = Result (VInt 42)
  /\ _request_table (conn_after (on_receive c1 response_42)) !! 0 = None.
Proof.
  apply (call_round_trip (demo_conn 0) (demo_conn 0) (VStr "echo") [VInt 42] []
           (VInt 42) request_echo42 response_42);
    vm_compute; (reflexivity || discriminate).
Defined.

Lemma remote_error_round_trip_witness :
  let c1 := fst (call (VStr "nope") [] None (demo_conn 0)) in
  exit (on_receive (demo_conn 0) request_nope) = Drained
  /\ written (conn_after (on_receive (demo_conn 0) request_nope))
     = written (demo_conn 0) ++ [response_no_such_method]
  /\ exit (on_receive c1 response_no_such_method)
     = Raised (RPCServerError (VStr "no such method"))
  /\ state_of (conn_after (on_receive c1 response_no_such_method)) 0 = Pending
  /\ _request_table (conn_after (on_receive c1 response_no_such_method)) !! 0
     = Some 0%nat.
Proof.
  apply (remote_error_round_trip (demo_conn 0) (demo_conn 0) (VStr "nope") [] []
           "no such method" request_nope response_no_such_method);
    vm_compute; (reflexivity || discriminate).
Defined.

Lemma no_byte_is_lost_witness :
  len (_buff (demo_conn 0)) + len (request_echo42 ++ take 5 request_nope)
  = wire_size (dispatched (on_receive (demo_conn 0)
                             (request_echo42 ++ take 5 request_nope)))
    + len (_buff (conn_after (on_receive (demo_conn 0)
                                (request_echo42 ++ take 5 request_nope)))).
Proof.
  apply (no_byte_is_lost (demo_conn 0) (request_echo42 ++ take 5 request_nope)).
  - vm_compute. reflexivity.
  - assert (E : dispatched (on_receive (demo_conn 0)
                              (request_echo42 ++ take 5 request_nope))
                = [mkFrame 8 RPC_REQUEST 0 (VList [VStr "echo"; VList [VInt 42]])])
      by (vm_compute; reflexivity).
    rewrite E. repeat constructor; cbn; lia.
Defined.

Lemma entries_stay_pending_witness :
  (forall data, entries_pending (conn_after (on_receive (calling 0) data)))
  /\ (forall m a cb, entries_pending (fst (call m a cb (calling 0))))
  /\ (forall name cb, entries_pending (fst (register name cb (calling 0))))
  /\ (forall m a, entries_pending (fst (notice m a (calling 0))))
  /\ (forall i, entries_pending (fst (message_timeout_cb i (calling 0))))
  /\ (forall s t, entries_pending (RPCConnection_init (serv := demo_service) s t)).
Proof.
  apply (entries_stay_pending (calling 0)).
  intros i f Hi.
  assert (Hi' : ({[ 0 := 0%nat ]} : gmap Z nat) !! i = Some f) by exact Hi.
  apply lookup_singleton_Some in Hi' as [<- <-]. split.
  - exists []. reflexivity.
  - intros j Hj.
    assert (Hj' : ({[ 0 := 0%nat ]} : gmap Z nat) !! j = Some 0%nat) by exact Hj.
    now apply lookup_singleton_Some in Hj' as [<- _].
Defined.

Lemma on_close_removes_an_entry_of_conn_witness :
  let s' := on_close_in (map_to_list (rpc_clients one_node)) 0%nat one_node in
  (rpc_clients s' = rpc_clients one_node
   \/ exists n, n <> EmptyString /\ rpc_clients one_node !! n = Some 0%nat
                /\ rpc_clients s' = delete n (rpc_clients one_node))
  /\ ((forall n, rpc_clients one_node !! n <> Some 0%nat) -> s' = one_node).
Proof.
  apply (on_close_removes_an_entry_of_conn (map_to_list (rpc_clients one_node))
           0%nat one_node).
  reflexivity.
Defined.

Lemma empty_name_survives_close_witness :
  on_close_in (map_to_list (rpc_clients nameless_node)) 1%nat nameless_node
  = nameless_node.
Proof.
  apply (empty_name_survives_close (map_to_list (rpc_clients nameless_node))
           1%nat nameless_node).
  - reflexivity.
  - reflexivity.
  - intros n Hn. cbn in Hn. now apply lookup_singleton_Some in Hn as [<- _].
Defined.

Lemma register_then_close_restores_witness :
  snd (_handle_rpc_register 1%nat "nodeB" one_node) = true
  /\ rpc_clients (on_close 1%nat (fst (_handle_rpc_register 1%nat "nodeB" one_node)))
     = rpc_clients one_node.
Proof.
  apply (register_then_close_restores 1%nat "nodeB" one_node).
  - discriminate.
  - reflexivity.
  - intros n Hn. cbn in Hn. apply lookup_singleton_Some in Hn as [_ Hn].
    discriminate.
Defined.

Lemma registered_node_is_called_witness :
  let d1 := fst (duplex_register 0 "nodeA" lobby) in
  let d2 := fst (call_node "nodeA" (VStr "echo") [VInt 42] d1) in
  snd (duplex_register 0 "nodeA" lobby) = true
  /\ snd (call_node "nodeA" (VStr "echo") [VInt 42] d1)
     = NodeFuture 0 (length (futures (demo_conn 0)))
  /\ conns d2 !! 0%nat = Some (fst (call (VStr "echo") [VInt 42] None (demo_conn 0)))
  /\ written (fst (call (VStr "echo") [VInt 42] None (demo_conn 0)))
     = written (demo_conn 0) ++ [request_echo42]
  /\ (forall j, j <> 0%nat -> conns d2 !! j = conns lobby !! j)
  /\ registry d2 = registry d1.
Proof.
  apply (registered_node_is_called lobby 0 "nodeA" (demo_conn 0) (VStr "echo")
           [VInt 42] request_echo42); vm_compute; reflexivity.
Defined.

Lemma closed_node_is_not_called_witness :
  call_node "nodeA" (VStr "echo") [VInt 42] (duplex_close 0 lobby_with_nodeA)
  = (duplex_close 0 lobby_with_nodeA, NodeNotExist "nodeA").
Proof.
  apply (closed_node_is_not_called lobby_with_nodeA 0 "nodeA" (VStr "echo") [VInt 42]).
  - discriminate.
  - reflexivity.
  - intros n Hn. cbn in Hn. now apply lookup_singleton_Some in Hn as [<- _].
Defined.

Lemma register_is_call_with_another_frame_witness :
  snd (register (VStr "nodeA") None (demo_conn 0))
  = snd (call (VStr "echo") [VInt 42] None (demo_conn 0))
  /\ set_written [] (fst (register (VStr "nodeA") None (demo_conn 0)))
     = set_written [] (fst (call (VStr "echo") [VInt 42] None (demo_conn 0)))
  /\ written (fst (register (VStr "nodeA") None (demo_conn 0)))
     = written (demo_conn 0) ++ [register_nodeA]
  /\ written (fst (call (VStr "echo") [VInt 42] None (demo_conn 0)))
     = written (demo_conn 0) ++ [request_echo42].
Proof.
  apply (register_is_call_with_another_frame (demo_conn 0) (VStr "nodeA")
           (VStr "echo") [VInt 42] None register_nodeA request_echo42);
    vm_compute; reflexivity.
Defined.

Lemma frame_then_rest_witness :
  on_receive (demo_conn 0)
    (take 9 request_echo42 ++ drop 9 request_echo42 ++ request_nope)
  = add_frame (mkFrame (len (drop 9 request_echo42)) RPC_REQUEST 0
                 (VList [VStr "echo"; VList [VInt 42]]))
      (on_receive (fst (handle_rpc_request 0 (VStr "echo") [VInt 42] (demo_conn 0)))
         request_nope).
Proof.
  apply (frame_then_rest (demo_conn 0)
           (fst (handle_rpc_request 0 (VStr "echo") [VInt 42] (demo_conn 0)))
           (take 9 request_echo42) (drop 9 request_echo42) request_nope
           RPC_REQUEST 0 (VList [VStr "echo"; VList [VInt 42]]));
    vm_compute; reflexivity.
Defined.

End MoreExamples.
